(** * XRootD client transport: stream state machine and multi-stream helper

    A shallow embedding of
      - [XrdClient::Stream] (src/XrdClStream.cc): connection policy, fault
        handling, outbound queue ageing, write loop, disconnect;
      - [XrdClientMStream] (src/src/XrdClient/XrdClientMStream.cc): binding of
        a pending parallel stream and splitting of read requests.

    Objects reached through pointers ([OutMessageHelper *]) live in a heap
    keyed by address; the null pointer is address 0.  Calls into the external
    collaborators (socket, poller, task manager, transport, message handlers,
    incoming queue) are recorded, in program order, in a trace; the values
    those calls return are inputs of the embedded functions. *)

From stdpp Require Import base gmap list.
From Stdlib Require Import ZArith Lia.

Local Open Scope Z_scope.

(** ** XrdClStream.cc *)
Module Stream.

(** Arithmetic of [uint32_t]. *)
Definition u32 (x : Z) : Z := x mod 2 ^ 32.

(** Modelled from the spec: [struct Status] (XrdClStatus.hh is not among the
    sources): a status is a severity among OK, Error and Fatal, a code and an
    errno.  [Status()] is [(stOK, suDone, 0)]: the code of a
    default-constructed status is 0, which is [suDone]. *)
Inductive Severity := stOK | stError | stFatal.

Inductive StatusCode :=
  | suDone | suContinue | suRetry
  | errPollerError | errSocketOptError | errConnectionError
  | errSocketError | errSocketTimeout | errStreamDisconnect.

Record Status := mkStatus { status : Severity; code : StatusCode; errNo : Z }.

Definition Status_default : Status := mkStatus stOK suDone 0.
Definition Status1 (st : Severity) : Status := mkStatus st suDone 0.
Definition Status2 (st : Severity) (c : StatusCode) : Status := mkStatus st c 0.

Definition IsOK (st : Status) : bool :=
  match status st with stOK => true | _ => false end.
Definition IsFatal (st : Status) : bool :=
  match status st with stFatal => true | _ => false end.

Inductive StreamStatus := Disconnected | Connecting | Connected | Error.

Definition StreamStatus_eqb (a b : StreamStatus) : bool :=
  match a, b with
  | Disconnected, Disconnected | Connecting, Connecting
  | Connected, Connected | Error, Error => true
  | _, _ => false
  end.

(** Modelled from the spec: [class Message] (XrdClMessage.hh is not among
    the sources): a byte buffer of known size with a movable cursor, both
    [uint32_t]; [m_addr] is the address of the object. *)
Record Message := mkMessage { m_addr : Z; m_size : Z; m_cursor : Z }.

Definition SetCursor (c : Z) (m : Message) : Message :=
  mkMessage (m_addr m) (m_size m) c.
Definition AdvanceCursor (k : Z) (m : Message) : Message :=
  mkMessage (m_addr m) (m_size m) (u32 (m_cursor m + k)).

(** [struct OutMessageHelper]; [handler] is a pointer, 0 when absent. *)
Record OutMessageHelper := mkHelper {
  msg : Message;
  handler : Z;
  expires : Z;
  ownMessage : bool
}.

(** Calls made to the collaborators of the stream. *)
Inductive Event :=
  | EvSocketInitialize
  | EvSocketConnect
  | EvSocketClose
  | EvAddSocket
  | EvRemoveSocket
  | EvEnableWriteNotification (on : bool)
  | EvRegisterTask (at_time : Z)
  | EvTransportDisconnect (streamNum : Z)
  | EvHandleStatus (hndlr : Z) (message : Z) (st : Status)
  | EvFailAllHandlers (st : Status)
  | EvTimeoutHandlers (now : Z)
  | EvWrite (count : Z) (ret : Z)
  | EvDeleteMessage (message : Z).

(** Configuration read by the constructor. *)
Record Config := mkConfig {
  pTimeoutResolution : Z;
  pConnectionWindow : Z;
  pConnectionRetry : Z;
  pStreamErrorWindow : Z
}.

Record Stream := mkStream {
  pStreamNum : Z;
  cfg : Config;
  heap : gmap Z OutMessageHelper;
  pCurrentOut : Z;
  pOutQueue : list Z;
  pOutQueueConnect : list Z;
  pIncoming : Z;
  pStreamStatus : StreamStatus;
  pLastStreamError : StatusCode;
  pLastActivity : Z;
  pErrorTime : Z;
  pConnectionCount : Z;
  pConnectionInitTime : Z;
  trace : list Event
}.

Definition set_heap v s :=
  mkStream (pStreamNum s) (cfg s) v (pCurrentOut s) (pOutQueue s)
    (pOutQueueConnect s) (pIncoming s) (pStreamStatus s) (pLastStreamError s)
    (pLastActivity s) (pErrorTime s) (pConnectionCount s)
    (pConnectionInitTime s) (trace s).
Definition set_pCurrentOut v s :=
  mkStream (pStreamNum s) (cfg s) (heap s) v (pOutQueue s)
    (pOutQueueConnect s) (pIncoming s) (pStreamStatus s) (pLastStreamError s)
    (pLastActivity s) (pErrorTime s) (pConnectionCount s)
    (pConnectionInitTime s) (trace s).
Definition set_pOutQueue v s :=
  mkStream (pStreamNum s) (cfg s) (heap s) (pCurrentOut s) v
    (pOutQueueConnect s) (pIncoming s) (pStreamStatus s) (pLastStreamError s)
    (pLastActivity s) (pErrorTime s) (pConnectionCount s)
    (pConnectionInitTime s) (trace s).
Definition set_pOutQueueConnect v s :=
  mkStream (pStreamNum s) (cfg s) (heap s) (pCurrentOut s) (pOutQueue s)
    v (pIncoming s) (pStreamStatus s) (pLastStreamError s)
    (pLastActivity s) (pErrorTime s) (pConnectionCount s)
    (pConnectionInitTime s) (trace s).
Definition set_pIncoming v s :=
  mkStream (pStreamNum s) (cfg s) (heap s) (pCurrentOut s) (pOutQueue s)
    (pOutQueueConnect s) v (pStreamStatus s) (pLastStreamError s)
    (pLastActivity s) (pErrorTime s) (pConnectionCount s)
    (pConnectionInitTime s) (trace s).
Definition set_pStreamStatus v s :=
  mkStream (pStreamNum s) (cfg s) (heap s) (pCurrentOut s) (pOutQueue s)
    (pOutQueueConnect s) (pIncoming s) v (pLastStreamError s)
    (pLastActivity s) (pErrorTime s) (pConnectionCount s)
    (pConnectionInitTime s) (trace s).
Definition set_pLastStreamError v s :=
  mkStream (pStreamNum s) (cfg s) (heap s) (pCurrentOut s) (pOutQueue s)
    (pOutQueueConnect s) (pIncoming s) (pStreamStatus s) v
    (pLastActivity s) (pErrorTime s) (pConnectionCount s)
    (pConnectionInitTime s) (trace s).
Definition set_pErrorTime v s :=
  mkStream (pStreamNum s) (cfg s) (heap s) (pCurrentOut s) (pOutQueue s)
    (pOutQueueConnect s) (pIncoming s) (pStreamStatus s) (pLastStreamError s)
    (pLastActivity s) v (pConnectionCount s)
    (pConnectionInitTime s) (trace s).
Definition set_pConnectionCount v s :=
  mkStream (pStreamNum s) (cfg s) (heap s) (pCurrentOut s) (pOutQueue s)
    (pOutQueueConnect s) (pIncoming s) (pStreamStatus s) (pLastStreamError s)
    (pLastActivity s) (pErrorTime s) v
    (pConnectionInitTime s) (trace s).
Definition set_pConnectionInitTime v s :=
  mkStream (pStreamNum s) (cfg s) (heap s) (pCurrentOut s) (pOutQueue s)
    (pOutQueueConnect s) (pIncoming s) (pStreamStatus s) (pLastStreamError s)
    (pLastActivity s) (pErrorTime s) (pConnectionCount s)
    v (trace s).
Definition set_trace v s :=
  mkStream (pStreamNum s) (cfg s) (heap s) (pCurrentOut s) (pOutQueue s)
    (pOutQueueConnect s) (pIncoming s) (pStreamStatus s) (pLastStreamError s)
    (pLastActivity s) (pErrorTime s) (pConnectionCount s)
    (pConnectionInitTime s) v.

(** Record one call to a collaborator. *)
Definition emit (e : Event) (s : Stream) : Stream :=
  set_trace (trace s ++ [e]) s.

(** The stream as the constructor leaves it. *)
Definition Stream_new (streamNum : Z) (c : Config) : Stream :=
  mkStream streamNum c ∅ 0 [] [] 0 Disconnected suDone 0 0 0 0 [].

(** [delete hlpr]: the destructor deletes an owned message, then the helper
    leaves the heap. *)
Definition helper_dtor (h : OutMessageHelper) : list Event :=
  if ownMessage h then [EvDeleteMessage (m_addr (msg h))] else [].

(** The handler call, made only when the helper has a handler. *)
Definition call_handler (h : OutMessageHelper) (st : Status) : list Event :=
  if handler h =? 0 then [] else [EvHandleStatus (handler h) (m_addr (msg h)) st].

(** Body of the loop of [Stream::FailOutgoingHandlers] over the queue; a
    pointer with no object behind it is skipped. *)
Fixpoint FailOutgoingHandlers_loop (st : Status) (q : list Z)
    (hp : gmap Z OutMessageHelper) (tr : list Event)
    : gmap Z OutMessageHelper * list Event :=
  match q with
  | [] => (hp, tr)
  | it :: rest =>
      match hp !! it with
      | Some h =>
          FailOutgoingHandlers_loop st rest (delete it hp)
            (tr ++ call_handler h st ++ helper_dtor h)
      | None => FailOutgoingHandlers_loop st rest hp tr
      end
  end.

(** [Stream::FailOutgoingHandlers]. *)
Definition FailOutgoingHandlers (st : Status) (s : Stream) : Stream :=
  let '(hp, tr) := FailOutgoingHandlers_loop st (pOutQueue s) (heap s) (trace s) in
  set_pOutQueue [] (set_trace tr (set_heap hp s)).

(** The cleaning up at the head of [Stream::HandleStreamFault]. *)
Definition fault_cleanup (s : Stream) : Stream :=
  let s := emit EvRemoveSocket s in
  let s := emit EvSocketClose s in
  let s := set_pCurrentOut 0 s in
  let s := set_pIncoming 0 s in
  emit (EvTransportDisconnect (pStreamNum s)) s.

(** The tail of [Stream::HandleStreamFault]: declare the error and fail all
    the requests. *)
Definition fault_giveup (st : Status) (now : Z) (s : Stream) : Stream :=
  let s := set_pStreamStatus Error s in
  let s := set_pLastStreamError (code st) s in
  let s := set_pErrorTime now s in
  let s := if pStreamNum s =? 0 then emit (EvFailAllHandlers st) s else s in
  FailOutgoingHandlers st s.

(** [Stream::HandleStreamFault], with the time it reads and with the
    [Connect()] it calls on the immediate-reconnect path as arguments. *)
Definition HandleStreamFault_with (connect : Stream -> Stream)
    (st : Status) (now : Z) (s : Stream) : Stream :=
  let s := fault_cleanup s in
  if negb (IsFatal st) && (pConnectionCount s <? pConnectionRetry (cfg s)) then
    let s := set_pStreamStatus Connecting s in
    let newConnectTime := pConnectionInitTime s + pConnectionWindow (cfg s) in
    let timeToConnect := newConnectTime - now in
    if timeToConnect <=? 0 then connect s
    else emit (EvRegisterTask newConnectTime) s
  else fault_giveup st now s.

(** What one run of [Stream::Connect] observes: the clock, the results of
    [Socket::Initialize] and [Socket::Connect], of [Poller::AddSocket] and
    [Poller::EnableWriteNotification], and the clock read by the fault handler
    it calls when the poller refuses. *)
Record ConnectEnv := mkConnectEnv {
  ce_now : Z;
  ce_initialize : Status;
  ce_connect : Status;
  ce_addSocket : bool;
  ce_enableWrite : bool;
  ce_fault_now : Z
}.

(** [Stream::Connect].  The faults it raises are fatal, so the handler it
    calls never reaches the reconnect branch. *)
Definition Connect (env : ConnectEnv) (s : Stream) : Status * Stream :=
  let s := set_pConnectionInitTime (ce_now env) s in
  let s := set_pConnectionCount (pConnectionCount s + 1) s in
  let s := emit EvSocketInitialize s in
  let st := ce_initialize env in
  if negb (IsOK st) then (st, set_pStreamStatus Error s)
  else
    let s := emit EvSocketConnect s in
    let st := ce_connect env in
    if negb (IsOK st) then (st, set_pStreamStatus Error s)
    else
      let s := set_pStreamStatus Connecting s in
      let s := emit EvAddSocket s in
      if negb (ce_addSocket env) then
        let st := Status2 stFatal errPollerError in
        (st, HandleStreamFault_with (fun s' => s') st (ce_fault_now env) s)
      else
        let s := emit (EvEnableWriteNotification
                         (negb (pTimeoutResolution (cfg s) =? 0))) s in
        if negb (ce_enableWrite env) then
          let st := Status2 stFatal errPollerError in
          (st, HandleStreamFault_with (fun s' => s') st (ce_fault_now env) s)
        else (Status_default, s).

(** [Stream::HandleStreamFault]: [env] is what the immediate [Connect()]
    observes, when there is one. *)
Definition HandleStreamFault (st : Status) (now : Z) (env : ConnectEnv)
    (s : Stream) : Stream :=
  HandleStreamFault_with (fun s' => snd (Connect env s')) st now s.

(** [StreamConnectorTask::Run]. *)
Definition StreamConnectorTask_Run (env : ConnectEnv) (s : Stream) : Stream :=
  snd (Connect env s).

(** [Stream::CheckConnection]. *)
Definition CheckConnection (now : Z) (env : ConnectEnv) (s : Stream)
    : Status * Stream :=
  if StreamStatus_eqb (pStreamStatus s) Connected
     || StreamStatus_eqb (pStreamStatus s) Connecting
  then (Status_default, s)
  else if StreamStatus_eqb (pStreamStatus s) Error
          && (pStreamErrorWindow (cfg s) <? now - pErrorTime s)
  then (Status1 stError, s)
  else Connect env s.

(** What one run of [Stream::QueueOut] observes: the clock of
    [CheckConnection], the run of [Connect] it may start, the result of
    [Poller::EnableWriteNotification], the clock of the fault handler, the
    address [new] returns and the clock read for the expiration. *)
Record QueueEnv := mkQueueEnv {
  qe_now : Z;
  qe_connect : ConnectEnv;
  qe_enableWrite : bool;
  qe_fault_now : Z;
  qe_new : Z;
  qe_push_now : Z
}.

Definition is_empty {A} (l : list A) : bool :=
  match l with [] => true | _ => false end.

(** [Stream::QueueOut]. *)
Definition QueueOut (e : QueueEnv) (m : Message) (hndlr : Z) (timeout : Z)
    (s : Stream) : Status * Stream :=
  let '(sc, s) := CheckConnection (qe_now e) (qe_connect e) s in
  if negb (IsOK sc) then
    (sc, emit (EvHandleStatus hndlr (m_addr m) sc) s)
  else
    let push s :=
      (Status_default,
       set_pOutQueue (pOutQueue s ++ [qe_new e])
         (set_heap (<[qe_new e := mkHelper m hndlr (qe_push_now e + timeout) false]>
                      (heap s)) s)) in
    if is_empty (pOutQueue s) && StreamStatus_eqb (pStreamStatus s) Connected then
      let s := emit (EvEnableWriteNotification true) s in
      if negb (qe_enableWrite e) then
        let st := Status2 stFatal errPollerError in
        (st, HandleStreamFault st (qe_fault_now e) (qe_connect e) s)
      else push s
    else push s.

(** [Stream::Disconnect]. *)
Definition Disconnect (force : bool) (s : Stream) : Stream :=
  if negb force && negb (is_empty (pOutQueue s)) then s
  else
    let s := emit EvRemoveSocket s in
    let s := emit EvSocketClose s in
    let s := if pStreamNum s =? 0
             then emit (EvFailAllHandlers (Status2 stError errStreamDisconnect)) s
             else s in
    let s := FailOutgoingHandlers (Status2 stError errStreamDisconnect) s in
    let s := set_pStreamStatus Disconnected s in
    emit (EvTransportDisconnect (pStreamNum s)) s.

(** The test of the loop of [Stream::Tick] on one queue entry: the pointer is
    not null, is not [pCurrentOut] and its helper has expired. *)
Definition Tick_expired (now cur it : Z) (h : OutMessageHelper) : bool :=
  negb (it =? 0) && negb (it =? cur) && (expires h <=? now).

(** The loop of [Stream::Tick]: an expired entry has its handler called, is
    deleted and erased; any other entry is stepped over. *)
Fixpoint Tick_loop (now cur : Z) (q : list Z)
    (hp : gmap Z OutMessageHelper) (tr : list Event)
    : list Z * gmap Z OutMessageHelper * list Event :=
  match q with
  | [] => ([], hp, tr)
  | it :: rest =>
      match hp !! it with
      | Some h =>
          if Tick_expired now cur it h then
            Tick_loop now cur rest (delete it hp)
              (tr ++ call_handler h (Status2 stError errSocketTimeout)
                  ++ helper_dtor h)
          else
            let '(q', hp', tr') := Tick_loop now cur rest hp tr in
            (it :: q', hp', tr')
      | None =>
          let '(q', hp', tr') := Tick_loop now cur rest hp tr in
          (it :: q', hp', tr')
      end
  end.

(** [Stream::Tick]. *)
Definition Tick (now : Z) (s : Stream) : Stream :=
  let s := if pStreamNum s =? 0 then emit (EvTimeoutHandlers now) s else s in
  let '(q, hp, tr) :=
    Tick_loop now (pCurrentOut s) (pOutQueue s) (heap s) (trace s) in
  set_pOutQueue q (set_trace tr (set_heap hp s)).

(** [errno] values of a write that would block (Linux numbering, where the
    two coincide). *)
Definition EAGAIN : Z := 11.
Definition EWOULDBLOCK : Z := EAGAIN.

(** What one call of [::write] meets: room for [capacity] bytes in the
    socket buffer, nothing written (return 0) or a failure (return -1), the
    last two with the [errno] then visible. *)
Inductive WriteOutcome :=
  | WriteRoom (capacity : positive)
  | WriteZero (errno : Z)
  | WriteFail (errno : Z).

Definition sys_write (o : WriteOutcome) (count : Z) : Z :=
  match o with
  | WriteRoom cap => Z.min count (Z.pos cap)
  | WriteZero _ => 0
  | WriteFail _ => -1
  end.

Definition sys_errno (o : WriteOutcome) : Z :=
  match o with
  | WriteRoom _ => 0
  | WriteZero e | WriteFail e => e
  end.

(** The [while( leftToBeWritten )] loop of [Stream::WriteMessage]; [sock i]
    is what the [i]-th call of [::write] meets.  The result holds the status
    returned from inside the loop, if any, the message and the trace; it is
    [None] when the loop has not ended within [fuel] calls of [::write].
    Every call that does not end the loop takes at least one byte, so
    [leftToBeWritten] calls are enough ([write_loop_spec]). *)
Fixpoint write_loop (fuel : nat) (sock : nat -> WriteOutcome) (i : nat)
    (m : Message) (leftToBeWritten : Z) (tr : list Event)
    : option (option Status * Message * list Event) :=
  if leftToBeWritten =? 0 then Some (None, m, tr)
  else
    match fuel with
    | O => None
    | S fuel' =>
        let st := sys_write (sock i) leftToBeWritten in
        let tr := tr ++ [EvWrite leftToBeWritten st] in
        if st <=? 0 then
          let errno := sys_errno (sock i) in
          if (errno =? EAGAIN) || (errno =? EWOULDBLOCK) then
            Some (Some (Status2 stOK suContinue), m, tr)
          else
            Some (Some (mkStatus stError errSocketError errno),
                  SetCursor 0 m, tr)
        else
          write_loop fuel' sock (S i) (AdvanceCursor st m)
            (u32 (leftToBeWritten - st)) tr
    end.

(** The two outgoing queues [WriteMessage] is called on. *)
Inductive WhichQueue := UserQueue | ConnectQueue.

Definition get_queue (w : WhichQueue) (s : Stream) : list Z :=
  match w with UserQueue => pOutQueue s | ConnectQueue => pOutQueueConnect s end.
Definition set_queue (w : WhichQueue) (q : list Z) (s : Stream) : Stream :=
  match w with
  | UserQueue => set_pOutQueue q s
  | ConnectQueue => set_pOutQueueConnect q s
  end.

(** What one run of [Stream::WriteMessage] observes. *)
Record WriteEnv := mkWriteEnv {
  we_sock : nat -> WriteOutcome;
  we_enableWrite : bool
}.

(** The part of [Stream::WriteMessage] that picks the current helper: the
    status is the one returned when there is nothing to write. *)
Definition WriteMessage_pick (e : WriteEnv) (w : WhichQueue) (s : Stream)
    : option Status * Stream :=
  if pCurrentOut s =? 0 then
    match get_queue w s with
    | front :: _ =>
        let s := set_pCurrentOut front s in
        (None,
         match heap s !! front with
         | Some h =>
             set_heap (<[front := mkHelper (SetCursor 0 (msg h)) (handler h)
                                    (expires h) (ownMessage h)]> (heap s)) s
         | None => s
         end)
    | [] =>
        let s := emit (EvEnableWriteNotification false) s in
        if negb (we_enableWrite e) then
          (Some (Status2 stFatal errPollerError), s)
        else (Some Status_default, s)
    end
  else (None, s).

(** The part of [Stream::WriteMessage] that writes the current message
    and, once it is out, retires its helper.  [None] stands for the
    undefined behaviour of following [pCurrentOut] to no object or popping
    an empty queue. *)
Definition WriteMessage_write (e : WriteEnv) (w : WhichQueue) (s : Stream)
    : option (Status * Stream) :=
  match heap s !! pCurrentOut s with
  | None => None
  | Some h =>
      let m := msg h in
      let leftToBeWritten := u32 (m_size m - m_cursor m) in
      match write_loop (Z.to_nat leftToBeWritten) (we_sock e) O m
              leftToBeWritten (trace s) with
      | None => None
      | Some (ret, m', tr) =>
          let h' := mkHelper m' (handler h) (expires h) (ownMessage h) in
          let s := set_trace tr
                     (set_heap (<[pCurrentOut s := h']> (heap s)) s) in
          match ret with
          | Some st => Some (st, s)
          | None =>
              let s := set_trace (trace s ++ call_handler h' Status_default) s in
              match get_queue w s with
              | [] => None
              | _ :: rest =>
                  let s := set_queue w rest s in
                  let s := set_trace (trace s ++ helper_dtor h')
                             (set_heap (delete (pCurrentOut s) (heap s)) s) in
                  let s := set_pCurrentOut 0 s in
                  if is_empty (get_queue w s) then
                    let s := emit (EvEnableWriteNotification false) s in
                    if negb (we_enableWrite e) then
                      Some (Status2 stFatal errPollerError, s)
                    else Some (Status_default, s)
                  else Some (Status_default, s)
              end
          end
      end
  end.

(** [Stream::WriteMessage]. *)
Definition WriteMessage (e : WriteEnv) (w : WhichQueue) (s : Stream)
    : option (Status * Stream) :=
  match WriteMessage_pick e w s with
  | (Some st, s) => Some (st, s)
  | (None, s) => WriteMessage_write e w s
  end.

(** *** Fault chains

    A fault chain is a run of faults on one stream, each followed by the
    reconnection it arranged: the [Connect()] made inside the handler, or
    the one the task manager makes when it runs the registered task. *)

Definition is_connect_call (e : Event) : bool :=
  match e with EvSocketInitialize => true | _ => false end.
Definition is_task (e : Event) : bool :=
  match e with EvRegisterTask _ => true | _ => false end.
Definition is_handler_call (e : Event) : bool :=
  match e with EvHandleStatus _ _ _ => true | _ => false end.
Definition is_delete (e : Event) : bool :=
  match e with EvDeleteMessage _ => true | _ => false end.

Definition count_ev (p : Event -> bool) (tr : list Event) : nat :=
  length (List.filter p tr).

(** A class of events that holds no call of a message handler and no
    deletion of a message. *)
Definition quiet (p : Event -> bool) : Prop :=
  (forall h m st, p (EvHandleStatus h m st) = false) /\
  (forall m, p (EvDeleteMessage m) = false).

(** Number of runs of [Connect] so far: each calls [Socket::Initialize]
    once and nothing else does. *)
Definition connects (s : Stream) : nat := count_ev is_connect_call (trace s).
(** Number of tasks handed to the task manager so far. *)
Definition registered (s : Stream) : nat := count_ev is_task (trace s).

Record Fault := mkFault {
  f_status : Status;
  f_now : Z;
  f_connect : ConnectEnv;
  f_task : ConnectEnv
}.

Definition fault_round (f : Fault) (s : Stream) : Stream :=
  let s' := HandleStreamFault (f_status f) (f_now f) (f_connect f) s in
  if (registered s <? registered s')%nat
  then StreamConnectorTask_Run (f_task f) s'
  else s'.

Definition fault_chain (fs : list Fault) (s : Stream) : Stream :=
  fold_left (fun s f => fault_round f s) fs s.

(** A run of [Connect] in which the socket and the poller cooperate. *)
Definition good_env (e : ConnectEnv) : bool :=
  IsOK (ce_initialize e) && IsOK (ce_connect e)
  && ce_addSocket e && ce_enableWrite e.

(** A fault that is not fatal, on a stream whose reconnection is not
    hindered. *)
Definition retryable (f : Fault) : Prop :=
  IsFatal (f_status f) = false /\ good_env (f_connect f) = true
  /\ good_env (f_task f) = true.

(** "The [n]-th fault of a chain started by a connect attempt is the one
    that moves the stream to [Error]", for a stream whose connection counter
    was 0 before that attempt: a new stream, or one whose last handshake
    completed. *)
Definition Error_at_fault (c : Config) (n : nat) : Prop :=
  forall s0 env0 fs,
    cfg s0 = c -> pConnectionCount s0 = 0 ->
    good_env env0 = true -> Forall retryable fs ->
    let s1 := snd (Connect env0 s0) in
    ((length fs < n)%nat -> pStreamStatus (fault_chain fs s1) = Connecting) /\
    (length fs = n -> pStreamStatus (fault_chain fs s1) = Error).

(** "On the retry path [HandleStreamFault] leaves the user queue and its
    helpers as they were and calls no handler". *)
Definition retry_path_keeps_queue : Prop :=
  forall st now env s,
    IsFatal st = false ->
    pConnectionCount s < pConnectionRetry (cfg s) ->
    let s' := HandleStreamFault st now env s in
    pOutQueue s' = pOutQueue s /\ heap s' = heap s /\
    count_ev is_handler_call (trace s') = count_ev is_handler_call (trace s).

(** The socket is set up and connecting, and the poller refuses it. *)
Definition poller_refuses (env : ConnectEnv) : bool :=
  IsOK (ce_initialize env) && IsOK (ce_connect env)
  && negb (ce_addSocket env && ce_enableWrite env).

(** *** Reading the loops over the queue

    What [Tick] and [FailOutgoingHandlers] do with one queue entry, read in
    the heap as it is when the loop starts. *)

(** The entry is aged out by [Tick]. *)
Definition Tick_removed (now cur : Z) (hp : gmap Z OutMessageHelper) (it : Z)
    : bool :=
  match hp !! it with
  | Some h => Tick_expired now cur it h
  | None => false
  end.

(** The calls [Tick] makes for the entry. *)
Definition Tick_events (now cur : Z) (hp : gmap Z OutMessageHelper) (it : Z)
    : list Event :=
  match hp !! it with
  | Some h =>
      if Tick_expired now cur it h
      then call_handler h (Status2 stError errSocketTimeout) ++ helper_dtor h
      else []
  | None => []
  end.

(** The calls [FailOutgoingHandlers] makes for the entry. *)
Definition fail_events (st : Status) (hp : gmap Z OutMessageHelper) (it : Z)
    : list Event :=
  match hp !! it with
  | Some h => call_handler h st ++ helper_dtor h
  | None => []
  end.

(** Bytes the calls of [::write] in a trace have put on the wire. *)
Definition bytes_written (tr : list Event) : Z :=
  fold_right (fun e acc =>
                match e with EvWrite _ r => Z.max r 0 + acc | _ => acc end)
             0 tr.

(** *** Scenarios *)

Definition env_ok (t : Z) : ConnectEnv :=
  mkConnectEnv t Status_default Status_default true true t.

Definition connect_timeout (t : Z) : Fault :=
  mkFault (Status2 stError errConnectionError) t (env_ok t) (env_ok t).

(** Connection window 30, three retries, error window 10. *)
Definition cfg_30_3 : Config := mkConfig 15 30 3 10.

(** A stream that started connecting at 0 and whose attempts timed out at
    30, 60 and 90. *)
Definition stream_in_error : Stream :=
  fault_chain [connect_timeout 30; connect_timeout 60; connect_timeout 90]
    (snd (Connect (env_ok 0) (Stream_new 0 cfg_30_3))).

(** A connected stream with three queued messages of 64 bytes, expiring at
    50, 60 and 500; the first is being written, 16 bytes are out. *)
Definition heap_three : gmap Z OutMessageHelper :=
  <[1000 := mkHelper (mkMessage 500 64 16) 7 50 false]>
    (<[1001 := mkHelper (mkMessage 501 64 0) 8 60 false]>
       (<[1002 := mkHelper (mkMessage 502 64 0) 9 500 false]> ∅)).

Definition stream_three_slots : Stream :=
  mkStream 0 cfg_30_3 heap_three 1000 [1000; 1001; 1002] [] 0 Connected
    suDone 0 0 0 0 [].

(** A connected stream about to write a message of 4096 bytes, and a
    socket that takes 1500 bytes and is then full. *)
Definition stream_one_message : Stream :=
  mkStream 0 cfg_30_3
    (<[1000 := mkHelper (mkMessage 500 4096 0) 7 600 false]> ∅)
    0 [1000] [] 0 Connected suDone 0 0 0 0 [].

Definition sock_1500_then_full : WriteEnv :=
  mkWriteEnv (fun i => match i with
                       | O => WriteRoom 1500
                       | _ => WriteFail EAGAIN
                       end) true.

(** The helper of [h] with the cursor of its message at [c]. *)
Definition with_cursor (c : Z) (h : OutMessageHelper) : OutMessageHelper :=
  mkHelper (SetCursor c (msg h)) (handler h) (expires h) (ownMessage h).

(** *** Events of the poller

    The handlers [Stream::Event] calls that are made of the pieces above. *)

(** The [delete] of every helper of a queue, as the loop of
    [Stream::HandleConnectingTimeout] does it; a pointer with no object
    behind it is skipped. *)
Fixpoint delete_helpers (q : list Z) (hp : gmap Z OutMessageHelper)
    (tr : list Event) : gmap Z OutMessageHelper * list Event :=
  match q with
  | [] => (hp, tr)
  | it :: rest =>
      match hp !! it with
      | Some h => delete_helpers rest (delete it hp) (tr ++ helper_dtor h)
      | None => delete_helpers rest hp tr
      end
  end.

(** [Stream::HandleConnectingTimeout]: [now] is the clock it reads,
    [fault_now] the one the fault handler reads after it and [env] what the
    [Connect()] of that handler observes. *)
Definition HandleConnectingTimeout (now fault_now : Z) (env : ConnectEnv)
    (s : Stream) : Stream :=
  if pConnectionInitTime s + pConnectionWindow (cfg s) <=? now then
    let '(hp, tr) := delete_helpers (pOutQueueConnect s) (heap s) (trace s) in
    let s := set_pOutQueueConnect [] (set_trace tr (set_heap hp s)) in
    HandleStreamFault (Status2 stError errConnectionError) fault_now env s
  else s.

(** [Stream::ConnectedReadyToWrite]; [None] as for [WriteMessage]. *)
Definition ConnectedReadyToWrite (e : WriteEnv) (fault_now : Z)
    (env : ConnectEnv) (s : Stream) : option Stream :=
  match WriteMessage e UserQueue s with
  | None => None
  | Some (st, s) =>
      if negb (IsOK st) then Some (HandleStreamFault st fault_now env s)
      else Some s
  end.

End Stream.

(** ** XrdClientMStream.cc *)
Module MStream.

(** Two's-complement wrap-around of the signed [w]-bit integers. *)
Definition wrap (w : Z) (x : Z) : Z :=
  (x + 2 ^ (w - 1)) mod 2 ^ w - 2 ^ (w - 1).
Definition i32 : Z -> Z := wrap 32.
Definition i64 : Z -> Z := wrap 64.

Definition INT32_MAX : Z := 2 ^ 31 - 1.
Definition INT64_MAX : Z := 2 ^ 63 - 1.

(** The macros [xrdmin] and [xrdmax]. *)
Definition xrdmin (a b : Z) : Z := if a <? b then a else b.
Definition xrdmax (a b : Z) : Z := if a >? b then a else b.

(** Constants of the protocol and of the client (XProtocol.hh and
    XrdClientConst.hh are not among the sources), with the values of the
    XRootD protocol; nothing below depends on the values, only on [kXR_ok]
    being one status among others. *)
Definition kXR_ok : Z := 0.
Definition kXR_bind : Z := 3024.
Definition XRDCLI_PSOCKTEMP : Z := -2.

(** [struct ServerResponseHeader]. *)
Record ServerResponseHeader := mkRespHeader {
  resp_streamid : list Byte.byte;
  resp_status : Z;
  resp_dlen : Z
}.

(** [struct ServerResponseBody_Bind]. *)
Record ServerResponseBody_Bind := mkBindBody { substreamid : Z }.

(** The [bind] view of the union [ClientRequest]: a two-byte stream id, the
    request id, the sixteen bytes of the session id and the length of the
    payload. *)
Record ClientRequest := mkRequest {
  streamid : list Byte.byte;
  requestid : Z;
  sessid : list Byte.byte;
  dlen : Z
}.

(** [memset( &bindFileRequest, 0, sizeof(bindFileRequest) )]. *)
Definition ClientRequest_zero : ClientRequest :=
  mkRequest (repeat Byte.x00 2) 0 (repeat Byte.x00 16) 0.

(** [memcpy( dst, src, n )] on byte arrays: the first [n] bytes of [dst]
    become those of [src]. *)
Definition memcpy (dst src : list Byte.byte) (n : nat) : list Byte.byte :=
  firstn n src ++ skipn n dst.

(** The fields of [XrdClientConn] the multi-stream code reaches. *)
Record XrdClientConn := mkConn {
  LastServerResp : ServerResponseHeader;
  fPrimaryStreamid : list Byte.byte;
  fSessionID : list Byte.byte
}.

Definition set_LastServerResp (r : ServerResponseHeader) (c : XrdClientConn)
    : XrdClientConn :=
  mkConn r (fPrimaryStreamid c) (fSessionID c).

(** Modelled from the spec: [XrdClientConn::GetSessionID] (its code is not
    among the sources): yields the 16-byte session id obtained at login. *)
Definition GetSessionID (c : XrdClientConn) : list Byte.byte := fSessionID c.

(** Modelled from the spec: [XrdClientConn::SetSID] (its code is not among
    the sources): stores the stream id of the connection, opaque to the
    multi-stream code, in the two bytes it is given. *)
Definition SetSID (c : XrdClientConn) (sid : list Byte.byte) : list Byte.byte :=
  memcpy sid (fPrimaryStreamid c) 2.

(** Calls made to the physical connection and to the logical one. *)
Inductive Call :=
  | TryConnectParallelStream
  | DoHandShake (substream : Z)
  | ReinitFDTable
  | SendGenCommandCall (req : ClientRequest) (substream : Z)
  | IsValid
  | EstablishPendingParallelStream (newid : Z)
  | RemoveParallelStreamCall (substream : Z).

Section Bind.

(** [XrdClientConn::SendGenCommand] on a request without payload, sent
    through the given substream: it returns whether the exchange succeeded,
    leaves the connection in a new state and fills the response body. *)
Variable SendGenCommand :
  ClientRequest -> Z -> XrdClientConn ->
  bool * XrdClientConn * ServerResponseBody_Bind.

(** The request [BindPendingStream] builds. *)
Definition bindFileRequest (cliconn : XrdClientConn) : ClientRequest :=
  let sess := GetSessionID cliconn in
  let req := ClientRequest_zero in
  let req := mkRequest (SetSID cliconn (streamid req)) (requestid req)
               (sessid req) (dlen req) in
  let req := mkRequest (streamid req) kXR_bind (sessid req) (dlen req) in
  mkRequest (streamid req) (requestid req) (memcpy (sessid req) sess 16)
    (dlen req).

(** [XrdClientMStream::BindPendingStream]: the result, the value left in
    [newid], the connection and the calls made. *)
Definition BindPendingStream (cliconn : XrdClientConn) (substream : Z)
    (newid : Z) : bool * Z * XrdClientConn * list Call :=
  let LastServerResptmp := LastServerResp cliconn in
  let req := bindFileRequest cliconn in
  let '(res, cliconn, bndresp) := SendGenCommand req substream cliconn in
  let newid :=
    if res && (resp_status (LastServerResp cliconn) =? kXR_ok)
    then substreamid bndresp else newid in
  let cliconn := set_LastServerResp LastServerResptmp cliconn in
  (res, newid, cliconn, [ReinitFDTable; SendGenCommandCall req substream]).

(** What one run of [AddParallelStream] gets from the physical connection:
    the results of [TryConnectParallelStream], of [DoHandShake] (whether it
    is [kSTError]), of [IsValid] and of [EstablishPendingParallelStream]. *)
Record PhyEnv := mkPhyEnv {
  pe_tryConnect : Z;
  pe_handShakeError : bool;
  pe_isValid : bool;
  pe_establish : Z -> Z
}.

(** [XrdClientMStream::RemoveParallelStream]. *)
Definition RemoveParallelStream (substream : Z) : Z * list Call :=
  (0, [RemoveParallelStreamCall substream]).

(** [XrdClientMStream::AddParallelStream]. *)
Definition AddParallelStream (pe : PhyEnv) (cliconn : XrdClientConn)
    : Z * XrdClientConn * list Call :=
  let tr := [TryConnectParallelStream] in
  if pe_tryConnect pe <? 0 then (-1, cliconn, tr)
  else
    let tr := tr ++ [DoHandShake XRDCLI_PSOCKTEMP] in
    if pe_handShakeError pe then (-1, cliconn, tr)
    else
      let tr := tr ++ [ReinitFDTable] in
      let newid := -1 in
      let '(bound, newid, cliconn, tr') :=
        BindPendingStream cliconn XRDCLI_PSOCKTEMP newid in
      let tr := tr ++ tr' in
      if bound then
        let tr := tr ++ [IsValid] in
        if pe_isValid pe then
          let tr := tr ++ [EstablishPendingParallelStream newid] in
          let res := pe_establish pe newid in
          if negb (res =? 0) then
            (res, cliconn, tr ++ snd (RemoveParallelStream XRDCLI_PSOCKTEMP))
          else (0, cliconn, tr)
        else (-1, cliconn, tr ++ snd (RemoveParallelStream XRDCLI_PSOCKTEMP))
      else (-1, cliconn, tr ++ snd (RemoveParallelStream XRDCLI_PSOCKTEMP)).

End Bind.

(** [struct ReadChunk]. *)
Record ReadChunk := mkChunk { offset : Z; len : Z; streamtosend : Z }.

Section Split.

(** The configured split size, a positive [int]. *)
Variable DFLT_MULTISTREAMSPLITSIZE : Z.

(** State of the session's stream pool, with its two queries
    [XrdClientConn::GetParallelStreamCount] and
    [XrdClientConn::GetParallelStreamToUse] (their code is not among the
    sources); the second may move the pool's selector. *)
Variable Pool : Type.
Variable GetParallelStreamCount : Pool -> Z.
Variable GetParallelStreamToUse : Pool -> Z * Pool.

(** The split size [SplitReadRequest] settles on. *)
Definition spltsize_of (cliconn : Pool) (len : Z) : Z :=
  let spltsize := DFLT_MULTISTREAMSPLITSIZE in
  if GetParallelStreamCount cliconn >? 1 then
    xrdmax spltsize (i32 (Z.quot len (GetParallelStreamCount cliconn) + 1))
  else spltsize.

(** The [for] loop of [SplitReadRequest], at the test [pp < len]. *)
Fixpoint SplitReadRequest_loop (fuel : nat) (offset len spltsize pp : Z)
    (cliconn : Pool) (reqlists : list ReadChunk)
    : option (list ReadChunk * Pool) :=
  if pp <? len then
    match fuel with
    | O => None
    | S fuel' =>
        let ck_offset := i64 (pp + offset) in
        let ck_len := xrdmin (i32 (len - pp)) spltsize in
        let '(sid, cliconn) := GetParallelStreamToUse cliconn in
        SplitReadRequest_loop fuel' offset len spltsize (i32 (pp + spltsize))
          cliconn (reqlists ++ [mkChunk ck_offset ck_len sid])
    end
  else Some (reqlists, cliconn).

(** [XrdClientMStream::SplitReadRequest]: the chunks pushed on [reqlists]
    and the pool after the selections; [None] when the loop has not ended
    within [fuel] iterations.  The function itself always returns true. *)
Definition SplitReadRequest (fuel : nat) (cliconn : Pool) (offset len : Z)
    (reqlists : list ReadChunk) : option (list ReadChunk * Pool) :=
  SplitReadRequest_loop fuel offset len (spltsize_of cliconn len) 0
    cliconn reqlists.

End Split.

(** Modelled from the spec: the round-robin selector behind
    [GetParallelStreamToUse] (its code is not among the sources): a single
    session-local counter over the [rr_count] connected substreams, which
    hands out the stream ids [0, 1, ..., rr_count - 1] in turn. *)
Record RoundRobin := mkRoundRobin { rr_count : Z; rr_next : Z }.

Definition RoundRobin_count (p : RoundRobin) : Z := rr_count p.

Definition RoundRobin_select (p : RoundRobin) : Z * RoundRobin :=
  (rr_next p,
   mkRoundRobin (rr_count p)
     (if rr_count p <=? rr_next p + 1 then 0 else rr_next p + 1)).

Section Establish.

Variable SendGenCommand :
  ClientRequest -> Z -> XrdClientConn ->
  bool * XrdClientConn * ServerResponseBody_Bind.

(** The [for] loop of [XrdClientMStream::EstablishParallelStreams], with
    [n] iterations to go before [i] reaches [mx]; [pes k] is what the
    physical connection answers during the [k]-th [AddParallelStream]. *)
Fixpoint EstablishParallelStreams_loop (n : nat) (i : Z) (pes : nat -> PhyEnv)
    (k : nat) (cliconn : XrdClientConn) (tr : list Call)
    : Z * XrdClientConn * list Call :=
  match n with
  | O => (i, cliconn, tr)
  | S n' =>
      let '(res, cliconn, tr') :=
        AddParallelStream SendGenCommand (pes k) cliconn in
      if negb (res =? 0) then (i, cliconn, tr ++ tr')
      else EstablishParallelStreams_loop n' (i + 1) pes (S k) cliconn
             (tr ++ tr')
  end.

(** [XrdClientMStream::EstablishParallelStreams]; [mx] is the configured
    number of parallel streams. *)
Definition EstablishParallelStreams (mx : Z) (pes : nat -> PhyEnv)
    (cliconn : XrdClientConn) : Z * XrdClientConn * list Call :=
  EstablishParallelStreams_loop (Z.to_nat mx) 0 pes O cliconn [].

End Establish.

Definition is_tryConnect (c : Call) : bool :=
  match c with TryConnectParallelStream => true | _ => false end.
Definition is_remove (c : Call) : bool :=
  match c with RemoveParallelStreamCall _ => true | _ => false end.
Definition count_calls (p : Call -> bool) (tr : list Call) : nat :=
  length (List.filter p tr).

Section Selections.

Variable Pool : Type.
Variable GetParallelStreamToUse : Pool -> Z * Pool.

(** The stream ids [n] successive calls of [GetParallelStreamToUse] give,
    and the pool they leave. *)
Fixpoint selections (n : nat) (p : Pool) : list Z * Pool :=
  match n with
  | O => ([], p)
  | S n' =>
      let '(sid, p1) := GetParallelStreamToUse p in
      let '(sids, p2) := selections n' p1 in
      (sid :: sids, p2)
  end.

End Selections.

(** *** Scenarios *)

Definition MiB : Z := 1024 * 1024.

(** The session id 0x01, 0x02, ..., 0x10. *)
Definition session_1_16 : list Byte.byte :=
  [Byte.x01; Byte.x02; Byte.x03; Byte.x04; Byte.x05; Byte.x06; Byte.x07;
   Byte.x08; Byte.x09; Byte.x0a; Byte.x0b; Byte.x0c; Byte.x0d; Byte.x0e;
   Byte.x0f; Byte.x10].

(** A logged-in connection whose last response was a redirection
    ([kXR_redirect], 4004) of 24 bytes. *)
Definition conn_logged_in : XrdClientConn :=
  mkConn (mkRespHeader [Byte.x00; Byte.x01] 4004 24) [Byte.x00; Byte.x01]
    session_1_16.

(** A server that accepts the bind and assigns substream 3. *)
Definition send_bound_3 (req : ClientRequest) (substream : Z)
    (c : XrdClientConn) : bool * XrdClientConn * ServerResponseBody_Bind :=
  (true, set_LastServerResp (mkRespHeader (streamid req) kXR_ok 1) c,
   mkBindBody 3).

(** A server that answers the bind with an error status ([kXR_error],
    4003), the exchange itself having succeeded. *)
Definition send_refused (req : ClientRequest) (substream : Z)
    (c : XrdClientConn) : bool * XrdClientConn * ServerResponseBody_Bind :=
  (true, set_LastServerResp (mkRespHeader (streamid req) 4003 0) c,
   mkBindBody 0).

(** A physical connection on which every step succeeds. *)
Definition phy_ok : PhyEnv := mkPhyEnv 5 false true (fun _ => 0).

(** "Whenever [AddParallelStream] reaches the bind, [SendGenCommand]
    succeeds and the status of the response is not [kXR_ok], the pending
    stream is established with id -1 and not removed as for a failed
    bind". *)
Definition unbound_stream_is_established : Prop :=
  forall send pe cliconn,
    0 <= pe_tryConnect pe -> pe_handShakeError pe = false ->
    (let '(res, c1, _) :=
       send (bindFileRequest cliconn) XRDCLI_PSOCKTEMP cliconn in
     res = true /\ resp_status (LastServerResp c1) <> kXR_ok) ->
    In (EstablishPendingParallelStream (-1))
       (snd (AddParallelStream send pe cliconn)).

(** Four connected substreams, the selector on the first. *)
Definition pool_4 : RoundRobin := mkRoundRobin 4 0.

(** Only the primary stream. *)
Definition pool_1 : RoundRobin := mkRoundRobin 1 0.

(** [SplitReadRequest] over the round-robin pool with a default split size
    of 16 MiB. *)
Definition Split16 (fuel : nat) (p : RoundRobin) (offset len : Z)
    : option (list ReadChunk * RoundRobin) :=
  SplitReadRequest (16 * MiB) RoundRobin RoundRobin_count RoundRobin_select
    fuel p offset len [].

(** "The request of 100 MiB at offset 0 is split in 7 chunks". *)
Definition split_100MiB_in_7 : Prop :=
  exists fuel chunks pool',
    Split16 fuel pool_4 0 (100 * MiB) = Some (chunks, pool') /\
    length chunks = 7%nat.

(** The chunks run from [start] to [stop] without gap or overlap, in
    ascending order, none of them empty. *)
Fixpoint contiguous (start : Z) (chunks : list ReadChunk) (stop : Z) : Prop :=
  match chunks with
  | [] => start = stop
  | ck :: rest =>
      offset ck = start /\ 0 < len ck /\ contiguous (start + len ck) rest stop
  end.

End MStream.

(** * Properties of the stream state machine *)
Section StreamFacts.
Import Stream.

(** ** Connection policy *)

Lemma CheckConnection_connected env now s :
  pStreamStatus s = Connected \/ pStreamStatus s = Connecting ->
  CheckConnection now env s = (Status_default, s).
Proof.
  unfold CheckConnection. intros [-> | ->]; reflexivity.
Qed.

(** In state [Error] the code rejects exactly when the error window has
    been exceeded, and starts a connection otherwise. *)
Lemma CheckConnection_Error env now s :
  pStreamStatus s = Error ->
  CheckConnection now env s =
    if pStreamErrorWindow (cfg s) <? now - pErrorTime s
    then (Status1 stError, s) else Connect env s.
Proof.
  unfold CheckConnection. intros ->. reflexivity.
Qed.

Lemma CheckConnection_Disconnected env now s :
  pStreamStatus s = Disconnected ->
  CheckConnection now env s = Connect env s.
Proof.
  unfold CheckConnection. intros ->. reflexivity.
Qed.

(** ** Traces *)

Lemma count_ev_app p tr1 tr2 :
  count_ev p (tr1 ++ tr2) = (count_ev p tr1 + count_ev p tr2)%nat.
Proof.
  unfold count_ev. rewrite List.filter_app, length_app. reflexivity.
Qed.

Lemma quiet_is_connect_call : quiet is_connect_call.
Proof. split; reflexivity. Qed.
Lemma quiet_is_task : quiet is_task.
Proof. split; reflexivity. Qed.

Lemma count_ev_call_handler p h st :
  quiet p -> count_ev p (call_handler h st) = O.
Proof.
  intros [Hh _]. unfold call_handler.
  destruct (handler h =? 0); [reflexivity|].
  unfold count_ev. simpl. rewrite Hh. reflexivity.
Qed.

Lemma count_ev_helper_dtor p h :
  quiet p -> count_ev p (helper_dtor h) = O.
Proof.
  intros [_ Hd]. unfold helper_dtor.
  destruct (ownMessage h); [|reflexivity].
  unfold count_ev. simpl. rewrite Hd. reflexivity.
Qed.

Lemma FailOutgoingHandlers_loop_count p st q :
  quiet p -> forall hp tr,
  count_ev p (snd (FailOutgoingHandlers_loop st q hp tr)) = count_ev p tr.
Proof.
  intros Hq. induction q as [|it rest IH]; intros hp tr; simpl.
  - reflexivity.
  - destruct (hp !! it) as [h|]; [|apply IH].
    rewrite IH, !count_ev_app, count_ev_call_handler, count_ev_helper_dtor
      by assumption.
    lia.
Qed.

(** ** What the pieces of the fault handler leave untouched *)

Ltac fields := repeat split; reflexivity.

Lemma FailOutgoingHandlers_frame st s :
  let s' := FailOutgoingHandlers st s in
  cfg s' = cfg s /\ pStreamStatus s' = pStreamStatus s /\
  pConnectionCount s' = pConnectionCount s /\
  pConnectionInitTime s' = pConnectionInitTime s /\
  pErrorTime s' = pErrorTime s /\ pStreamNum s' = pStreamNum s /\
  pOutQueue s' = [].
Proof.
  unfold FailOutgoingHandlers.
  destruct (FailOutgoingHandlers_loop _ _ _ _) as [hp tr]. fields.
Qed.

Lemma FailOutgoingHandlers_count p st s :
  quiet p ->
  count_ev p (trace (FailOutgoingHandlers st s)) = count_ev p (trace s).
Proof.
  intros Hq. unfold FailOutgoingHandlers.
  pose proof (FailOutgoingHandlers_loop_count p st (pOutQueue s) Hq
                (heap s) (trace s)) as H.
  destruct (FailOutgoingHandlers_loop _ _ _ _) as [hp tr]. exact H.
Qed.

Lemma fault_cleanup_frame s :
  let s' := fault_cleanup s in
  cfg s' = cfg s /\ pStreamStatus s' = pStreamStatus s /\
  pConnectionCount s' = pConnectionCount s /\
  pConnectionInitTime s' = pConnectionInitTime s /\
  pOutQueue s' = pOutQueue s /\ heap s' = heap s /\
  pStreamNum s' = pStreamNum s /\
  trace s' = trace s ++ [EvRemoveSocket; EvSocketClose;
                         EvTransportDisconnect (pStreamNum s)].
Proof.
  unfold fault_cleanup, emit. simpl. rewrite <- !app_assoc. fields.
Qed.

Lemma fault_cleanup_count p s :
  p EvRemoveSocket = false -> p EvSocketClose = false ->
  (forall n, p (EvTransportDisconnect n) = false) ->
  count_ev p (trace (fault_cleanup s)) = count_ev p (trace s).
Proof.
  intros H1 H2 H3.
  destruct (fault_cleanup_frame s) as (_ & _ & _ & _ & _ & _ & _ & ->).
  rewrite count_ev_app. unfold count_ev at 2. simpl.
  rewrite H1, H2, H3. simpl. lia.
Qed.

Lemma fault_giveup_frame st now s :
  let s' := fault_giveup st now s in
  cfg s' = cfg s /\ pStreamStatus s' = Error /\
  pConnectionCount s' = pConnectionCount s /\
  pErrorTime s' = now /\ pOutQueue s' = [].
Proof.
  unfold fault_giveup.
  match goal with |- context [FailOutgoingHandlers st ?x] =>
    destruct (FailOutgoingHandlers_frame st x) as (Hc & Hs & Hn & _ & He & _ & Hq)
  end.
  cbv zeta. rewrite Hc, Hs, Hn, He, Hq.
  destruct (pStreamNum _ =? 0); fields.
Qed.

Lemma fault_giveup_count p st now s :
  quiet p -> (forall x, p (EvFailAllHandlers x) = false) ->
  count_ev p (trace (fault_giveup st now s)) = count_ev p (trace s).
Proof.
  intros Hq Hf. unfold fault_giveup.
  rewrite FailOutgoingHandlers_count by assumption.
  destruct (pStreamNum _ =? 0); simpl; [|reflexivity].
  rewrite count_ev_app. unfold count_ev at 2. simpl. rewrite Hf. simpl. lia.
Qed.

(** A fatal fault never reaches the reconnect branch. *)
Lemma HandleStreamFault_with_fatal connect st now s :
  IsFatal st = true ->
  HandleStreamFault_with connect st now s
    = fault_giveup st now (fault_cleanup s).
Proof.
  intros Hf. unfold HandleStreamFault_with. rewrite Hf. reflexivity.
Qed.

(** The three ways through [HandleStreamFault]. *)
Lemma HandleStreamFault_giveup st now env s :
  negb (IsFatal st) && (pConnectionCount s <? pConnectionRetry (cfg s)) = false ->
  HandleStreamFault st now env s = fault_giveup st now (fault_cleanup s).
Proof.
  intros H. unfold HandleStreamFault, HandleStreamFault_with.
  destruct (fault_cleanup_frame s) as (-> & _ & -> & _).
  rewrite H. reflexivity.
Qed.

Lemma HandleStreamFault_retry st now env s :
  negb (IsFatal st) && (pConnectionCount s <? pConnectionRetry (cfg s)) = true ->
  HandleStreamFault st now env s =
    let s' := set_pStreamStatus Connecting (fault_cleanup s) in
    let newConnectTime := pConnectionInitTime s + pConnectionWindow (cfg s) in
    if newConnectTime - now <=? 0 then snd (Connect env s')
    else emit (EvRegisterTask newConnectTime) s'.
Proof.
  intros H. unfold HandleStreamFault, HandleStreamFault_with.
  destruct (fault_cleanup_frame s) as (Hc & _ & Hn & Hi & _).
  rewrite Hc, Hn, H. cbv zeta.
  change (pConnectionInitTime (set_pStreamStatus Connecting (fault_cleanup s)))
    with (pConnectionInitTime (fault_cleanup s)).
  change (cfg (set_pStreamStatus Connecting (fault_cleanup s)))
    with (cfg (fault_cleanup s)).
  rewrite Hi, Hc. reflexivity.
Qed.

(** ** [Connect] *)

Lemma count_ev_snoc p tr e :
  count_ev p (tr ++ [e]) = (count_ev p tr + if p e then 1 else 0)%nat.
Proof.
  rewrite count_ev_app. unfold count_ev at 2. simpl.
  destruct (p e); reflexivity.
Qed.

(** Every run of [Connect], whatever the socket and the poller answer,
    adds one to the connection counter, calls [Socket::Initialize] once and
    registers no task. *)
Lemma Connect_frame env s :
  let s' := snd (Connect env s) in
  cfg s' = cfg s /\
  pConnectionCount s' = pConnectionCount s + 1 /\
  connects s' = S (connects s) /\
  registered s' = registered s.
Proof.
  unfold Connect, connects, registered.
  destruct (IsOK (ce_initialize env)); simpl.
  2:{ rewrite !count_ev_snoc. simpl. repeat split; lia. }
  destruct (IsOK (ce_connect env)); simpl.
  2:{ rewrite !count_ev_snoc. simpl. repeat split; lia. }
  assert (Hfault : forall x : Stream,
    let y := HandleStreamFault_with (fun s' => s')
               (Status2 stFatal errPollerError) (ce_fault_now env) x in
    cfg y = cfg x /\ pConnectionCount y = pConnectionCount x /\
    count_ev is_connect_call (trace y) = count_ev is_connect_call (trace x) /\
    count_ev is_task (trace y) = count_ev is_task (trace x)).
  { intros x y. subst y. rewrite HandleStreamFault_with_fatal by reflexivity.
    destruct (fault_giveup_frame (Status2 stFatal errPollerError)
                (ce_fault_now env) (fault_cleanup x)) as (-> & _ & -> & _).
    destruct (fault_cleanup_frame x) as (-> & _ & -> & _).
    rewrite !fault_giveup_count, !fault_cleanup_count
      by (try apply quiet_is_connect_call; try apply quiet_is_task; reflexivity).
    repeat split. }
  destruct (ce_addSocket env); simpl.
  2:{ match goal with |- context [HandleStreamFault_with _ _ _ ?x] =>
        destruct (Hfault x) as (-> & -> & -> & ->) end.
      simpl. rewrite !count_ev_snoc. simpl. repeat split; lia. }
  destruct (ce_enableWrite env); simpl.
  2:{ match goal with |- context [HandleStreamFault_with _ _ _ ?x] =>
        destruct (Hfault x) as (-> & -> & -> & ->) end.
      simpl. rewrite !count_ev_snoc. simpl. repeat split; lia. }
  rewrite !count_ev_snoc. simpl. repeat split; lia.
Qed.

(** When the socket and the poller cooperate, [Connect] leaves the stream
    [Connecting] and touches neither the queue nor the helpers. *)
Lemma Connect_good env s :
  good_env env = true ->
  let s' := snd (Connect env s) in
  fst (Connect env s) = Status_default /\
  pStreamStatus s' = Connecting /\
  pOutQueue s' = pOutQueue s /\ heap s' = heap s /\
  pConnectionInitTime s' = ce_now env /\
  trace s' = trace s ++ [EvSocketInitialize; EvSocketConnect; EvAddSocket;
               EvEnableWriteNotification
                 (negb (pTimeoutResolution (cfg s) =? 0))].
Proof.
  unfold good_env, Connect. intros H.
  apply andb_prop in H as [H He]. apply andb_prop in H as [H Ha].
  apply andb_prop in H as [Hi Hc].
  rewrite Hi, Hc, Ha, He. simpl. rewrite <- !app_assoc. fields.
Qed.

(** ** One round of a fault chain *)

Lemma registered_cleanup s : registered (fault_cleanup s) = registered s.
Proof. apply fault_cleanup_count; reflexivity. Qed.

Lemma connects_cleanup s : connects (fault_cleanup s) = connects s.
Proof. apply fault_cleanup_count; reflexivity. Qed.

Lemma count_ev_emit p e s :
  count_ev p (trace (emit e s))
    = (count_ev p (trace s) + if p e then 1 else 0)%nat.
Proof. apply count_ev_snoc. Qed.

Lemma registered_emit_task t s :
  registered (emit (EvRegisterTask t) s) = S (registered s).
Proof. unfold registered. rewrite count_ev_emit. simpl. lia. Qed.

Lemma connects_emit_task t s :
  connects (emit (EvRegisterTask t) s) = connects s.
Proof. unfold connects. rewrite count_ev_emit. simpl. lia. Qed.

(** On the retry path a round runs [Connect] exactly once, inside the
    handler or from the registered task. *)
Lemma fault_round_retry f s :
  IsFatal (f_status f) = false ->
  pConnectionCount s < pConnectionRetry (cfg s) ->
  let s' := fault_round f s in
  cfg s' = cfg s /\
  pConnectionCount s' = pConnectionCount s + 1 /\
  connects s' = S (connects s) /\
  (good_env (f_connect f) = true -> good_env (f_task f) = true ->
   pStreamStatus s' = Connecting /\ pOutQueue s' = pOutQueue s /\
   heap s' = heap s).
Proof.
  intros Hf Hlt. unfold fault_round.
  rewrite HandleStreamFault_retry
    by (rewrite Hf; simpl; apply Z.ltb_lt; exact Hlt).
  cbv zeta.
  set (X := set_pStreamStatus Connecting (fault_cleanup s)).
  assert (HX : cfg X = cfg s /\ pConnectionCount X = pConnectionCount s /\
               connects X = connects s /\ registered X = registered s /\
               pOutQueue X = pOutQueue s /\ heap X = heap s).
  { destruct (fault_cleanup_frame s) as (Hc & _ & Hn & _ & Hq & Hh & _).
    repeat split; try assumption.
    - apply connects_cleanup.
    - apply registered_cleanup. }
  destruct HX as (Xc & Xn & Xk & Xr & Xq & Xh).
  destruct (_ - f_now f <=? 0).
  - destruct (Connect_frame (f_connect f) X) as (Hc & Hn & Hk & Hr).
    cbv zeta in Hr. rewrite Hr, Xr, Nat.ltb_irrefl.
    rewrite Hc, Hn, Hk, Xc, Xn, Xk. repeat split.
    all: destruct (Connect_good (f_connect f) X H) as (_ & Hs & Hq & Hh & _);
      congruence.
  - set (Y := emit (EvRegisterTask _) X).
    assert (HY : registered Y = S (registered s)).
    { unfold Y. rewrite registered_emit_task, Xr. reflexivity. }
    rewrite HY.
    replace (registered s <? S (registered s))%nat with true
      by (symmetry; apply Nat.ltb_lt; lia).
    unfold StreamConnectorTask_Run.
    destruct (Connect_frame (f_task f) Y) as (Hc & Hn & Hk & _).
    rewrite Hc, Hn, Hk.
    assert (connects Y = connects s) as ->.
    { unfold Y. rewrite connects_emit_task, Xk. reflexivity. }
    change (cfg Y) with (cfg X). change (pConnectionCount Y) with (pConnectionCount X).
    rewrite Xc, Xn. repeat split.
    all: destruct (Connect_good (f_task f) Y H0) as (_ & Hs & Hq & Hh & _);
      change (pOutQueue Y) with (pOutQueue X) in *;
      change (heap Y) with (heap X) in *; congruence.
Qed.

(** Off the retry path a round ends in [Error] and runs no [Connect]. *)
Lemma fault_round_giveup f s :
  negb (IsFatal (f_status f))
    && (pConnectionCount s <? pConnectionRetry (cfg s)) = false ->
  let s' := fault_round f s in
  cfg s' = cfg s /\ pStreamStatus s' = Error /\
  pConnectionCount s' = pConnectionCount s /\
  connects s' = connects s /\ pErrorTime s' = f_now f.
Proof.
  intros H. unfold fault_round.
  rewrite HandleStreamFault_giveup by exact H.
  assert (Hr : registered (fault_giveup (f_status f) (f_now f) (fault_cleanup s))
               = registered s).
  { unfold registered. rewrite fault_giveup_count
      by (try apply quiet_is_task; reflexivity).
    apply registered_cleanup. }
  rewrite Hr, Nat.ltb_irrefl.
  destruct (fault_giveup_frame (f_status f) (f_now f) (fault_cleanup s))
    as (-> & -> & -> & -> & _).
  destruct (fault_cleanup_frame s) as (-> & _ & -> & _).
  repeat split.
  unfold connects. rewrite fault_giveup_count
    by (try apply quiet_is_connect_call; reflexivity).
  apply connects_cleanup.
Qed.

(** ** Fault chains *)

(** Whatever the faults and the environment, the runs of [Connect] and the
    connection counter move together, and the counter never passes the
    larger of its first value and the retry limit. *)
Lemma fault_chain_counter fs : forall s,
  let s' := fault_chain fs s in
  cfg s' = cfg s /\
  Z.of_nat (connects s') - pConnectionCount s'
    = Z.of_nat (connects s) - pConnectionCount s /\
  pConnectionCount s <= pConnectionCount s' /\
  pConnectionCount s' <= Z.max (pConnectionCount s) (pConnectionRetry (cfg s)).
Proof.
  induction fs as [|f fs IH]; intros s; simpl.
  - repeat split; lia.
  - destruct (IH (fault_round f s)) as (Hc & Hd & Hle & Hmax).
    destruct (negb (IsFatal (f_status f))
                && (pConnectionCount s <? pConnectionRetry (cfg s))) eqn:E.
    + apply andb_prop in E as [Ef El].
      apply negb_true_iff in Ef. apply Z.ltb_lt in El.
      destruct (fault_round_retry f s Ef El) as (Rc & Rn & Rk & _).
      rewrite Hc, Hd, Rc in *. rewrite Rn, Rk in *. repeat split; lia.
    + destruct (fault_round_giveup f s E) as (Rc & _ & Rn & Rk & _).
      rewrite Hc, Hd, Rc in *. rewrite Rn, Rk in *. repeat split; lia.
Qed.

(** A chain of retryable faults: the counter climbs by one per fault up to
    the retry limit, and the stream is [Connecting] after a fault that found
    the counter below the limit, in [Error] after any other. *)
Lemma fault_chain_retryable fs : forall s,
  Forall retryable fs -> fs <> [] ->
  pConnectionCount s <= pConnectionRetry (cfg s) ->
  pStreamStatus (fault_chain fs s) =
    if pConnectionCount s + Z.of_nat (length fs) <=? pConnectionRetry (cfg s)
    then Connecting else Error.
Proof.
  induction fs as [|f fs IH]; intros s Hall Hne Hle; [congruence|].
  inversion Hall as [|? ? (Hf & Hg1 & Hg2) Hall']; subst.
  simpl fault_chain.
  assert (Hstep : cfg (fault_round f s) = cfg s /\
    ((pConnectionCount s < pConnectionRetry (cfg s) /\
      pConnectionCount (fault_round f s) = pConnectionCount s + 1 /\
      pStreamStatus (fault_round f s) = Connecting) \/
     (pConnectionCount s = pConnectionRetry (cfg s) /\
      pConnectionCount (fault_round f s) = pConnectionCount s /\
      pStreamStatus (fault_round f s) = Error))).
  { destruct (Z.ltb_spec (pConnectionCount s) (pConnectionRetry (cfg s)))
      as [Hlt|Hge].
    - destruct (fault_round_retry f s Hf Hlt) as (Rc & Rn & _ & Rg).
      destruct (Rg Hg1 Hg2) as (Rs & _). split; [exact Rc|]. left. auto.
    - assert (E : negb (IsFatal (f_status f))
                  && (pConnectionCount s <? pConnectionRetry (cfg s)) = false).
      { rewrite Hf. simpl. apply Z.ltb_ge. lia. }
      destruct (fault_round_giveup f s E) as (Rc & Rs & Rn & _).
      split; [exact Rc|]. right. repeat split; [lia | assumption..]. }
  destruct Hstep as (Rc & Hcase).
  destruct fs as [|f' fs'].
  - simpl fault_chain. simpl length.
    destruct Hcase as [(Hlt & _ & ->) | (Heq & _ & ->)];
      match goal with |- context [?a <=? ?b] => destruct (Z.leb_spec a b) end;
      first [reflexivity | lia].
  - rewrite IH; [| assumption | discriminate
                 | rewrite Rc; destruct Hcase as [(? & -> & _)|(? & -> & _)]; lia].
    rewrite Rc. simpl length.
    destruct Hcase as [(Hlt & -> & _) | (Heq & -> & _)];
      repeat match goal with |- context [?a <=? ?b] =>
               destruct (Z.leb_spec a b) end;
      first [reflexivity | lia].
Qed.

(** The connect attempt that starts a chain. *)
Lemma first_Connect s0 env0 :
  pConnectionCount s0 = 0 ->
  let s1 := snd (Connect env0 s0) in
  cfg s1 = cfg s0 /\ pConnectionCount s1 = 1 /\ connects s1 = S (connects s0).
Proof.
  intros H0.
  destruct (Connect_frame env0 s0) as (Hc & Hn & Hk & _).
  cbv zeta. rewrite Hc, Hn, Hk, H0. repeat split.
Qed.

Lemma Error_at_fault_retry c :
  1 <= pConnectionRetry c ->
  Error_at_fault c (Z.to_nat (pConnectionRetry c)).
Proof.
  intros Hr s0 env0 fs <- H0 Hg Hall s1.
  destruct (first_Connect s0 env0 H0) as (Hc & Hn & _).
  fold s1 in Hc, Hn.
  destruct (Connect_good env0 s0 Hg) as (_ & Hs & _).
  fold s1 in Hs.
  destruct fs as [|f fs].
  - simpl. split; [intros _; exact Hs | intros H; lia].
  - rewrite fault_chain_retryable by (try assumption; try discriminate;
                                       rewrite Hc, Hn; exact Hr).
    rewrite Hc, Hn.
    match goal with |- context [?a <=? ?b] => destruct (Z.leb_spec a b) end;
      split; intros H'; first [reflexivity | lia].
Qed.

(** C2 (counterexample): with three retries and a window of 30, connect
    attempts that time out at 30, 60 and 90 leave the stream in [Error]
    after the third fault, so it is not the fourth fault that moves it
    there. *)
Lemma reconnect_budget_counterexample :
  ~ Error_at_fault cfg_30_3 (Z.to_nat (pConnectionRetry cfg_30_3 + 1)).
Proof.
  intros H.
  specialize (H (Stream_new 0 cfg_30_3) (env_ok 0)
                [connect_timeout 30; connect_timeout 60; connect_timeout 90]
                eq_refl eq_refl eq_refl).
  destruct H as [H _].
  - repeat constructor.
  - assert (Hl : (3 < Z.to_nat (pConnectionRetry cfg_30_3 + 1))%nat)
      by (vm_compute; lia).
    specialize (H Hl). vm_compute in H. discriminate H.
Qed.

(** C2 (as amended): while the status is not fatal and
    [connectionCount < connectionRetry], [HandleStreamFault] sets the status
    to [Connecting] and either calls [Connect()] at once, when
    [connectionInitTime + connectionWindow] has passed, or registers a task
    for that time.  The counter counts every [Connect()], the one that
    started the chain included: a chain started by a connect attempt on a
    stream whose counter was 0 makes at most [connectionRetry - 1]
    reconnects, whatever the faults and the answers of socket and poller,
    and its [connectionRetry]-th fault is the one that moves the stream to
    [Error]. *)
Theorem HandleStreamFault_reconnect_budget (c : Config) :
  1 <= pConnectionRetry c ->
  (forall st now env s,
     cfg s = c -> IsFatal st = false ->
     pConnectionCount s < pConnectionRetry c ->
     HandleStreamFault st now env s =
       let s' := set_pStreamStatus Connecting (fault_cleanup s) in
       let newConnectTime := pConnectionInitTime s + pConnectionWindow c in
       if newConnectTime - now <=? 0 then snd (Connect env s')
       else emit (EvRegisterTask newConnectTime) s') /\
  (forall s0 env0 fs,
     cfg s0 = c -> pConnectionCount s0 = 0 ->
     let s1 := snd (Connect env0 s0) in
     Z.of_nat (connects (fault_chain fs s1) - connects s1)
       <= pConnectionRetry c - 1) /\
  Error_at_fault c (Z.to_nat (pConnectionRetry c)).
Proof.
  intros Hr. split; [|split].
  - intros st now env s <- Hf Hlt.
    apply HandleStreamFault_retry. rewrite Hf. simpl.
    apply Z.ltb_lt. exact Hlt.
  - intros s0 env0 fs <- H0 s1.
    destruct (first_Connect s0 env0 H0) as (Hc & Hn & Hk).
    fold s1 in Hc, Hn, Hk.
    destruct (fault_chain_counter fs s1) as (_ & Hd & Hle & Hmax).
    rewrite Hc, Hn in *. lia.
  - apply Error_at_fault_retry. exact Hr.
Qed.

Lemma HandleStreamFault_reconnect_budget_witness :
  1 <= pConnectionRetry cfg_30_3 /\ Error_at_fault cfg_30_3 3.
Proof.
  assert (H : 1 <= pConnectionRetry cfg_30_3) by (simpl; lia).
  split; [exact H|].
  exact (proj2 (proj2 (HandleStreamFault_reconnect_budget cfg_30_3 H))).
Defined.

(** ** The loops over the outbound queue *)

Lemma Tick_loop_spec now cur hp0 q :
  NoDup q -> forall hp tr,
  (forall x, x ∈ q -> hp !! x = hp0 !! x) ->
  let r := Tick_loop now cur q hp tr in
  r.1.1 = List.filter (fun it => negb (Tick_removed now cur hp0 it)) q /\
  r.2 = tr ++ flat_map (Tick_events now cur hp0) q /\
  (forall a, r.1.2 !! a =
     if bool_decide (a ∈ q) && Tick_removed now cur hp0 a
     then None else hp !! a).
Proof.
  induction q as [|it rest IH]; intros Hnd hp tr Hag; simpl.
  - rewrite app_nil_r. repeat split.
  - apply NoDup_cons in Hnd as [Hnotin Hnd].
    assert (Hit : hp !! it = hp0 !! it) by (apply Hag; left).
    unfold Tick_removed at 1, Tick_events at 1. rewrite <- Hit.
    destruct (hp !! it) as [h|] eqn:Hl.
    + destruct (Tick_expired now cur it h) eqn:Hex; simpl.
      * destruct (IH Hnd (delete it hp)
                    (tr ++ call_handler h (Status2 stError errSocketTimeout)
                        ++ helper_dtor h)) as (Hq & Ht & Hh).
        { intros x Hx. rewrite lookup_delete_ne by (intros ->; contradiction).
          apply Hag. right. exact Hx. }
        rewrite Hq, Ht. rewrite <- !app_assoc. repeat split.
        intros a. rewrite Hh.
        destruct (decide (a = it)) as [->|Hne].
        -- rewrite (bool_decide_eq_true_2 (it ∈ it :: rest)) by left.
           unfold Tick_removed at 2. rewrite <- Hit, Hl, Hex. simpl.
           rewrite lookup_delete_eq.
           destruct (_ && _); reflexivity.
        -- rewrite lookup_delete_ne by congruence.
           rewrite (bool_decide_ext (a ∈ it :: rest) (a ∈ rest)); [reflexivity|].
           rewrite elem_of_cons. tauto.
      * destruct (IH Hnd hp tr) as (Hq & Ht & Hh).
        { intros x Hx. apply Hag. right. exact Hx. }
        destruct (Tick_loop now cur rest hp tr) as [[q' hp'] tr'].
        simpl in *. rewrite Hq, Ht. repeat split.
        intros a. rewrite Hh.
        destruct (decide (a = it)) as [->|Hne].
        -- rewrite (bool_decide_eq_false_2 (it ∈ rest)) by assumption.
           unfold Tick_removed. rewrite <- Hit, Hl, Hex.
           rewrite !andb_false_r. reflexivity.
        -- rewrite (bool_decide_ext (a ∈ it :: rest) (a ∈ rest)); [reflexivity|].
           rewrite elem_of_cons. tauto.
    + destruct (IH Hnd hp tr) as (Hq & Ht & Hh).
      { intros x Hx. apply Hag. right. exact Hx. }
      destruct (Tick_loop now cur rest hp tr) as [[q' hp'] tr'].
      simpl in *. rewrite Hq, Ht. repeat split.
      intros a. rewrite Hh.
      destruct (decide (a = it)) as [->|Hne].
      * rewrite (bool_decide_eq_false_2 (it ∈ rest)) by assumption.
        unfold Tick_removed. rewrite <- Hit, Hl.
        rewrite !andb_false_r. reflexivity.
      * rewrite (bool_decide_ext (a ∈ it :: rest) (a ∈ rest)); [reflexivity|].
        rewrite elem_of_cons. tauto.
Qed.

Lemma FailOutgoingHandlers_loop_spec st hp0 q :
  NoDup q -> forall hp tr,
  (forall x, x ∈ q -> hp !! x = hp0 !! x) ->
  let r := FailOutgoingHandlers_loop st q hp tr in
  r.2 = tr ++ flat_map (fail_events st hp0) q /\
  (forall a, r.1 !! a = if bool_decide (a ∈ q) then None else hp !! a).
Proof.
  induction q as [|it rest IH]; intros Hnd hp tr Hag; simpl.
  - rewrite app_nil_r. repeat split.
  - apply NoDup_cons in Hnd as [Hnotin Hnd].
    assert (Hit : hp !! it = hp0 !! it) by (apply Hag; left).
    unfold fail_events at 1. rewrite <- Hit.
    destruct (hp !! it) as [h|] eqn:Hl.
    + destruct (IH Hnd (delete it hp)
                  (tr ++ call_handler h st ++ helper_dtor h)) as (Ht & Hh).
      { intros x Hx. rewrite lookup_delete_ne by (intros ->; contradiction).
        apply Hag. right. exact Hx. }
      rewrite Ht. rewrite <- !app_assoc. split; [reflexivity|].
      intros a. rewrite Hh.
      destruct (decide (a = it)) as [->|Hne].
      * rewrite (bool_decide_eq_true_2 (it ∈ it :: rest)) by left.
        rewrite lookup_delete_eq. destruct (bool_decide _); reflexivity.
      * rewrite lookup_delete_ne by congruence.
        rewrite (bool_decide_ext (a ∈ it :: rest) (a ∈ rest)); [reflexivity|].
        rewrite elem_of_cons. tauto.
    + destruct (IH Hnd hp tr) as (Ht & Hh).
      { intros x Hx. apply Hag. right. exact Hx. }
      rewrite Ht. split; [reflexivity|].
      intros a. rewrite Hh.
      destruct (decide (a = it)) as [->|Hne].
      * rewrite (bool_decide_eq_false_2 (it ∈ rest)) by assumption.
        rewrite (bool_decide_eq_true_2 (it ∈ it :: rest)) by left. exact Hl.
      * rewrite (bool_decide_ext (a ∈ it :: rest) (a ∈ rest)); [reflexivity|].
        rewrite elem_of_cons. tauto.
Qed.

(** ** [Tick] *)

(** C6: for every stream whose queue holds each helper once and every
    [now], [Tick] erases from the queue exactly the entries whose helper has
    [expires <= now] and is not [pCurrentOut], deletes these helpers, and
    calls the handler of each of them, in queue order, with
    [(stError, errSocketTimeout)]; the current helper is never aged out; on
    stream 0 [Tick] first hands [now] to the incoming queue. *)
Theorem Tick_ages_out_expired (now : Z) (s : Stream) :
  NoDup (pOutQueue s) ->
  let gone := Tick_removed now (pCurrentOut s) (heap s) in
  let s' := Tick now s in
  pOutQueue s' = List.filter (fun it => negb (gone it)) (pOutQueue s) /\
  (forall a, heap s' !! a =
     if bool_decide (a ∈ pOutQueue s) && gone a then None else heap s !! a) /\
  trace s' =
    trace s ++ (if pStreamNum s =? 0 then [EvTimeoutHandlers now] else [])
      ++ flat_map (fun it =>
           match heap s !! it with
           | Some h =>
               if gone it
               then call_handler h (Status2 stError errSocketTimeout)
                      ++ helper_dtor h
               else []
           | None => []
           end) (pOutQueue s) /\
  (forall it h, heap s !! it = Some h ->
     gone it = negb (it =? 0) && negb (it =? pCurrentOut s)
               && (expires h <=? now)) /\
  gone (pCurrentOut s) = false /\
  pCurrentOut s' = pCurrentOut s /\
  pStreamStatus s' = pStreamStatus s.
Proof.
  intros Hnd gone s'. subst s'. unfold Tick.
  set (s0 := if pStreamNum s =? 0 then emit (EvTimeoutHandlers now) s else s).
  assert (H0 : pCurrentOut s0 = pCurrentOut s /\ pOutQueue s0 = pOutQueue s /\
               heap s0 = heap s /\ pStreamStatus s0 = pStreamStatus s /\
               trace s0 = trace s ++
                 (if pStreamNum s =? 0 then [EvTimeoutHandlers now] else [])).
  { unfold s0. destruct (pStreamNum s =? 0); simpl;
      rewrite ?app_nil_r; repeat split. }
  destruct H0 as (Hc & Hq & Hh & Hs & Ht). rewrite Hc, Hq, Hh, Ht.
  destruct (Tick_loop_spec now (pCurrentOut s) (heap s) (pOutQueue s) Hnd
              (heap s) (trace s ++
                 (if pStreamNum s =? 0 then [EvTimeoutHandlers now] else [])))
    as (Rq & Rt & Rh); [reflexivity|].
  destruct (Tick_loop _ _ _ _ _) as [[q' hp'] tr']. simpl in Rq, Rt, Rh.
  simpl. rewrite Rq, Rt, <- app_assoc.
  split; [reflexivity|]. split; [exact Rh|]. split.
  { do 2 f_equal. apply flat_map_ext. intros it.
    unfold Tick_events, gone, Tick_removed.
    destruct (heap s !! it); reflexivity. }
  split.
  { intros it h Hl. unfold gone, Tick_removed. rewrite Hl. reflexivity. }
  split; [|split; assumption].
  unfold gone, Tick_removed, Tick_expired.
  destruct (heap s !! pCurrentOut s); [|reflexivity].
  rewrite Z.eqb_refl. simpl. rewrite andb_false_r. reflexivity.
Qed.

Lemma Tick_ages_out_expired_witness :
  NoDup (pOutQueue stream_three_slots) /\
  pOutQueue (Tick 100 stream_three_slots) = [1000; 1002] /\
  trace (Tick 100 stream_three_slots) =
    [EvTimeoutHandlers 100;
     EvHandleStatus 8 501 (Status2 stError errSocketTimeout)].
Proof.
  assert (Hnd : NoDup (pOutQueue stream_three_slots)).
  { apply (bool_decide_unpack _). vm_compute. exact I. }
  split; [exact Hnd|].
  destruct (Tick_ages_out_expired 100 stream_three_slots Hnd)
    as (Hq & _ & Ht & _).
  split; [rewrite Hq | rewrite Ht]; vm_compute; reflexivity.
Defined.

(** ** [Disconnect] *)

(** C8: [Disconnect(false)] on a stream whose user queue is not empty
    returns the stream as it was.  With [force], or with an empty queue,
    [Disconnect] removes the socket from the poller and closes it, calls the
    handler of every queued helper, in queue order, with
    [(stError, errStreamDisconnect)], deletes the helpers, empties the queue
    and leaves the status [Disconnected]. *)
Theorem Disconnect_spec (force : bool) (s : Stream) :
  let st := Status2 stError errStreamDisconnect in
  let s' := Disconnect force s in
  (force = false -> pOutQueue s <> [] -> s' = s) /\
  (force = true \/ pOutQueue s = [] -> NoDup (pOutQueue s) ->
   pStreamStatus s' = Disconnected /\
   pOutQueue s' = [] /\
   (forall a, heap s' !! a =
      if bool_decide (a ∈ pOutQueue s) then None else heap s !! a) /\
   trace s' =
     trace s ++ [EvRemoveSocket; EvSocketClose]
       ++ (if pStreamNum s =? 0 then [EvFailAllHandlers st] else [])
       ++ flat_map (fun it =>
            match heap s !! it with
            | Some h => call_handler h st ++ helper_dtor h
            | None => []
            end) (pOutQueue s)
       ++ [EvTransportDisconnect (pStreamNum s)]).
Proof.
  intros st s'. subst s'. unfold Disconnect. fold st. split.
  - intros -> Hne. destruct (pOutQueue s); [congruence|reflexivity].
  - intros Hforce Hnd.
    assert (negb force && negb (is_empty (pOutQueue s)) = false) as ->.
    { destruct Hforce as [-> | ->]; [reflexivity|].
      simpl. apply andb_false_r. }
    set (s0 := emit EvSocketClose (emit EvRemoveSocket s)).
    set (s1 := if pStreamNum s0 =? 0 then emit (EvFailAllHandlers st) s0 else s0).
    assert (H1 : pOutQueue s1 = pOutQueue s /\ heap s1 = heap s /\
                 pStreamNum s1 = pStreamNum s /\
                 trace s1 = trace s ++ [EvRemoveSocket; EvSocketClose] ++
                   (if pStreamNum s =? 0 then [EvFailAllHandlers st] else [])).
    { unfold s1, s0. simpl. destruct (pStreamNum s =? 0); simpl;
        rewrite <- ?app_assoc; repeat split. }
    destruct H1 as (Hq & Hh & Hn & Ht).
    unfold FailOutgoingHandlers. rewrite Hq, Hh, Ht.
    destruct (FailOutgoingHandlers_loop_spec st (heap s) (pOutQueue s) Hnd
                (heap s) (trace s ++ [EvRemoveSocket; EvSocketClose] ++
                   (if pStreamNum s =? 0 then [EvFailAllHandlers st] else [])))
      as (Rt & Rh); [reflexivity|].
    destruct (FailOutgoingHandlers_loop _ _ _ _) as [hp' tr'].
    simpl in Rt, Rh. simpl. rewrite Hn, Rt.
    split; [reflexivity|]. split; [reflexivity|]. split; [exact Rh|].
    rewrite <- !app_assoc. reflexivity.
Qed.

Lemma Disconnect_spec_witness :
  Disconnect false stream_three_slots = stream_three_slots /\
  pStreamStatus (Disconnect true stream_three_slots) = Disconnected /\
  trace (Disconnect true stream_three_slots) =
    [EvRemoveSocket; EvSocketClose;
     EvFailAllHandlers (Status2 stError errStreamDisconnect);
     EvHandleStatus 7 500 (Status2 stError errStreamDisconnect);
     EvHandleStatus 8 501 (Status2 stError errStreamDisconnect);
     EvHandleStatus 9 502 (Status2 stError errStreamDisconnect);
     EvTransportDisconnect 0].
Proof.
  assert (Hnd : NoDup (pOutQueue stream_three_slots)).
  { apply (bool_decide_unpack _). vm_compute. exact I. }
  split.
  - apply (proj1 (Disconnect_spec false stream_three_slots) eq_refl).
    simpl. discriminate.
  - destruct (proj2 (Disconnect_spec true stream_three_slots)
                (or_introl eq_refl) Hnd) as (Hs & _ & _ & Ht).
    split; [exact Hs|]. rewrite Ht. vm_compute. reflexivity.
Defined.

(** ** The queue across a fault *)

Lemma Connect_not_refused env s :
  poller_refuses env = false ->
  let s' := snd (Connect env s) in
  pOutQueue s' = pOutQueue s /\ heap s' = heap s /\
  count_ev is_handler_call (trace s') = count_ev is_handler_call (trace s) /\
  count_ev is_delete (trace s') = count_ev is_delete (trace s).
Proof.
  unfold poller_refuses, Connect.
  destruct (IsOK (ce_initialize env)); simpl;
    [|intros _; rewrite !count_ev_snoc; simpl; repeat split; lia].
  destruct (IsOK (ce_connect env)); simpl;
    [|intros _; rewrite !count_ev_snoc; simpl; repeat split; lia].
  destruct (ce_addSocket env); simpl; [|discriminate].
  destruct (ce_enableWrite env); simpl; [|discriminate].
  intros _. rewrite !count_ev_snoc. simpl. repeat split; lia.
Qed.

Lemma Connect_refused env s :
  poller_refuses env = true ->
  let s' := snd (Connect env s) in
  pStreamStatus s' = Error /\ pOutQueue s' = [] /\
  pErrorTime s' = ce_fault_now env /\
  fst (Connect env s) = Status2 stFatal errPollerError.
Proof.
  unfold poller_refuses, Connect.
  destruct (IsOK (ce_initialize env)); simpl; [|discriminate].
  destruct (IsOK (ce_connect env)); simpl; [|discriminate].
  assert (Hfault : forall x : Stream,
    let y := HandleStreamFault_with (fun s' => s')
               (Status2 stFatal errPollerError) (ce_fault_now env) x in
    pStreamStatus y = Error /\ pOutQueue y = [] /\
    pErrorTime y = ce_fault_now env).
  { intros x y. subst y. rewrite HandleStreamFault_with_fatal by reflexivity.
    destruct (fault_giveup_frame (Status2 stFatal errPollerError)
                (ce_fault_now env) (fault_cleanup x)) as (_ & -> & _ & -> & ->).
    repeat split. }
  destruct (ce_addSocket env); simpl.
  2:{ intros _. match goal with |- context [HandleStreamFault_with _ _ _ ?x] =>
        destruct (Hfault x) as (-> & -> & ->) end. repeat split. }
  destruct (ce_enableWrite env); simpl; [discriminate|].
  intros _. match goal with |- context [HandleStreamFault_with _ _ _ ?x] =>
    destruct (Hfault x) as (-> & -> & ->) end. repeat split.
Qed.

(** [Connect] leaves the user queue as it was or, when the poller
    refuses the socket, empty. *)
Lemma Connect_queue env s :
  pOutQueue (snd (Connect env s)) = pOutQueue s \/
  pOutQueue (snd (Connect env s)) = [].
Proof.
  destruct (poller_refuses env) eqn:E.
  - right. apply (Connect_refused env s E).
  - left. apply (Connect_not_refused env s E).
Qed.

(** The queue holds each helper once: [QueueOut] keeps it so, as long as
    [new] returns an address that is not in the queue. *)
Lemma QueueOut_NoDup e m hndlr timeout s :
  NoDup (pOutQueue s) -> qe_new e ∉ pOutQueue s ->
  NoDup (pOutQueue (snd (QueueOut e m hndlr timeout s))).
Proof.
  intros Hnd Hfresh. unfold QueueOut.
  assert (Hcc : pOutQueue (snd (CheckConnection (qe_now e) (qe_connect e) s))
                  = pOutQueue s \/
                pOutQueue (snd (CheckConnection (qe_now e) (qe_connect e) s))
                  = []).
  { unfold CheckConnection.
    destruct (_ || _); [left; reflexivity|].
    destruct (_ && _); [left; reflexivity|]. apply Connect_queue. }
  destruct (CheckConnection _ _ s) as [sc s1]. simpl in Hcc.
  assert (Hnd1 : NoDup (pOutQueue s1) /\ qe_new e ∉ pOutQueue s1).
  { destruct Hcc as [-> | ->]; [split; assumption|].
    split; [apply NoDup_nil_2 | apply not_elem_of_nil]. }
  destruct Hnd1 as [Hnd1 Hfresh1].
  assert (Hpush : forall x : Stream, pOutQueue x = pOutQueue s1 ->
            NoDup (pOutQueue x ++ [qe_new e])).
  { intros x ->. apply NoDup_app. split; [exact Hnd1|].
    split; [|apply NoDup_singleton].
    intros y Hy Hy'. apply list_elem_of_singleton in Hy'. subst y.
    contradiction. }
  destruct (negb (IsOK sc)); [exact Hnd1|].
  destruct (_ && _); [|apply Hpush; reflexivity].
  destruct (negb (qe_enableWrite e)); [|apply Hpush; reflexivity].
  cbn [snd]. unfold HandleStreamFault.
  rewrite HandleStreamFault_with_fatal by reflexivity.
  match goal with |- context [fault_giveup ?a ?b ?c] =>
    destruct (fault_giveup_frame a b c) as (_ & _ & _ & _ & ->) end.
  apply NoDup_nil_2.
Qed.




(** ** The write loop *)

Lemma bytes_written_app tr1 tr2 :
  bytes_written (tr1 ++ tr2) = bytes_written tr1 + bytes_written tr2.
Proof.
  induction tr1 as [|e tr1 IH]; simpl; [reflexivity|].
  rewrite IH. destruct e; lia.
Qed.

Lemma bytes_written_call_handler h st : bytes_written (call_handler h st) = 0.
Proof. unfold call_handler. destruct (_ =? _); reflexivity. Qed.

Lemma bytes_written_helper_dtor h : bytes_written (helper_dtor h) = 0.
Proof. unfold helper_dtor. destruct (ownMessage h); reflexivity. Qed.

Lemma bytes_written_write tr c r :
  bytes_written (tr ++ [EvWrite c r]) = bytes_written tr + Z.max r 0.
Proof. rewrite bytes_written_app. simpl. lia. Qed.

Lemma bytes_written_enable b :
  bytes_written [EvEnableWriteNotification b] = 0.
Proof. reflexivity. Qed.

(** A call of [::write] for [count > 0] bytes takes at most [count]. *)
Lemma sys_write_le o count : 0 < count -> sys_write o count <= count.
Proof. destruct o; simpl; lia. Qed.

(** The loop ends within [leftToBeWritten] calls of [::write]; the cursor
    has then moved by the bytes written, unless a write failed for a reason
    other than a full socket buffer. *)
Lemma write_loop_spec sock fuel : forall i m left tr,
  0 <= m_cursor m -> m_size m < 2 ^ 32 ->
  left = m_size m - m_cursor m -> 0 <= left ->
  (Z.to_nat left <= fuel)%nat ->
  exists ret m' tr',
    write_loop fuel sock i m left tr = Some (ret, m', tr') /\
    m_size m' = m_size m /\ m_addr m' = m_addr m /\
    let k := bytes_written tr' - bytes_written tr in
    0 <= k <= left /\
    match ret with
    | None => m_cursor m' = m_cursor m + k /\ k = left
    | Some st =>
        k < left /\
        exists j, (i <= j)%nat /\
          (forall j', (i <= j' < j)%nat -> exists cap, sock j' = WriteRoom cap) /\
          sys_write (sock j) (left - k) <= 0 /\
          let errno := sys_errno (sock j) in
          if (errno =? EAGAIN) || (errno =? EWOULDBLOCK)
          then st = Status2 stOK suContinue /\ m_cursor m' = m_cursor m + k
          else st = mkStatus stError errSocketError errno /\ m_cursor m' = 0
    end.
Proof.
  induction fuel as [|fuel IH]; intros i m left tr Hc Hs Hl Hpos Hfuel.
  - assert (left = 0) as -> by lia. simpl.
    exists None, m, tr. repeat split; lia.
  - simpl. destruct (Z.eqb_spec left 0) as [->|Hne].
    { exists None, m, tr. repeat split; lia. }
    destruct (Z.leb_spec (sys_write (sock i) left) 0) as [Hfail|Hok].
    + destruct ((sys_errno (sock i) =? EAGAIN)
                || (sys_errno (sock i) =? EWOULDBLOCK)) eqn:Hblock.
      * exists (Some (Status2 stOK suContinue)), m,
          (tr ++ [EvWrite left (sys_write (sock i) left)]).
        rewrite bytes_written_write.
        replace (Z.max (sys_write (sock i) left) 0) with 0 by lia.
        repeat split; try lia.
        exists i. replace (left - _) with left by lia.
        split; [lia|]. split; [intros j' Hj'; lia|].
        split; [exact Hfail|]. cbv zeta. rewrite Hblock. split; [reflexivity|lia].
      * exists (Some (mkStatus stError errSocketError (sys_errno (sock i)))),
          (SetCursor 0 m), (tr ++ [EvWrite left (sys_write (sock i) left)]).
        rewrite bytes_written_write.
        replace (Z.max (sys_write (sock i) left) 0) with 0 by lia.
        repeat split; try lia.
        exists i. replace (left - _) with left by lia.
        split; [lia|]. split; [intros j' Hj'; lia|].
        split; [exact Hfail|]. cbv zeta. rewrite Hblock. split; reflexivity.
    + set (k0 := sys_write (sock i) left) in *.
      assert (Hle : k0 <= left) by (apply sys_write_le; lia).
      assert (Hu : u32 (left - k0) = left - k0)
        by (unfold u32; apply Z.mod_small; lia).
      assert (Hcur : m_cursor (AdvanceCursor k0 m) = m_cursor m + k0)
        by (unfold AdvanceCursor, u32; simpl; apply Z.mod_small; lia).
      rewrite Hu.
      destruct (IH (S i) (AdvanceCursor k0 m) (left - k0)
                  (tr ++ [EvWrite left k0])) as (ret & m' & tr' & Heq & Hsz & Had & Hk);
        try (rewrite ?Hcur; simpl; lia).
      exists ret, m', tr'. split; [exact Heq|].
      split; [exact Hsz|]. split; [exact Had|].
      rewrite bytes_written_write in Hk. cbv zeta in Hk |- *.
      rewrite Hcur in Hk.
      replace (Z.max k0 0) with k0 in Hk by lia.
      set (k1 := bytes_written tr' - (bytes_written tr + k0)) in *.
      replace (bytes_written tr' - bytes_written tr) with (k1 + k0)
        by (unfold k1; lia).
      destruct Hk as (Hb & Hret). split; [lia|].
      destruct ret as [st|].
      * destruct Hret as (Hlt & j & Hij & Hroom & Hj & Hcase). split; [lia|].
        exists j. replace (left - (k1 + k0)) with (left - k0 - k1) by lia.
        split; [lia|]. split.
        { intros j' Hj'. destruct (Nat.eq_dec j' i) as [->|Hn].
          - unfold k0 in Hok. destruct (sock i) as [cap| |]; simpl in Hok;
              [exists cap; reflexivity | lia | lia].
          - apply Hroom. lia. }
        split; [exact Hj|].
        destruct (_ || _); destruct Hcase as (-> & Hm);
          split; try reflexivity; lia.
      * lia.
Qed.

(** ** [WriteMessage] *)

(** Picking the helper to write: the front of the queue, its cursor set to
    0, unless a helper is already current. *)
Lemma WriteMessage_pick_spec e w s a rest h :
  get_queue w s = a :: rest -> heap s !! a = Some h ->
  pCurrentOut s = 0 \/ pCurrentOut s = a -> a <> 0 ->
  exists s1 hc,
    WriteMessage_pick e w s = (None, s1) /\
    pCurrentOut s1 = a /\ heap s1 !! a = Some hc /\
    get_queue w s1 = a :: rest /\ trace s1 = trace s /\
    m_size (msg hc) = m_size (msg h) /\
    m_cursor (msg hc)
      = (if pCurrentOut s =? 0 then 0 else m_cursor (msg h)).
Proof.
  intros Hq Hh Hcur Hne. unfold WriteMessage_pick.
  destruct (Z.eqb_spec (pCurrentOut s) 0) as [H0|H0].
  - rewrite Hq. simpl. rewrite Hh.
    eexists _, _. split; [reflexivity|]. simpl.
    rewrite lookup_insert_eq.
    repeat split. destruct w; exact Hq.
  - destruct Hcur as [?|Hcur]; [contradiction|].
    exists s, h. repeat split; assumption.
Qed.



(** The partial write of the specification: 1500 bytes of 4096 go out, the
    socket is full, and the next run sends the other 2596. *)
Example WriteMessage_partial_then_rest :
  match WriteMessage sock_1500_then_full UserQueue stream_one_message with
  | Some (st, s') =>
      st = Status2 stOK suContinue /\
      pCurrentOut s' = 1000 /\
      (m_cursor ∘ msg) <$> (heap s' !! 1000) = Some 1500 /\
      match WriteMessage (mkWriteEnv (fun _ => WriteRoom 65536) true)
              UserQueue s' with
      | Some (st2, s2) =>
          st2 = Status_default /\ pOutQueue s2 = [] /\ pCurrentOut s2 = 0 /\
          trace s2 = [EvWrite 4096 1500; EvWrite 2596 (-1);
                      EvWrite 2596 2596; EvHandleStatus 7 500 Status_default;
                      EvEnableWriteNotification false]
      | None => False
      end
  | None => False
  end.
Proof. vm_compute. repeat split. Qed.

(** C1 (the code departs from the claim): on a stream in state [Error]
    since 90 with an error window of 10, a call at 95, inside the window, is
    not rejected but starts a connection, and [QueueOut] queues the message
    without calling the handler; a call at 101, after the window, is
    rejected with [stError] and [QueueOut] calls the handler with it. *)
Theorem CheckConnection_error_window_inverted :
  pStreamStatus stream_in_error = Error /\
  pErrorTime stream_in_error = 90 /\
  pStreamErrorWindow (cfg stream_in_error) = 10 /\
  fst (CheckConnection 95 (env_ok 95) stream_in_error) = Status_default /\
  pStreamStatus (snd (CheckConnection 95 (env_ok 95) stream_in_error))
    = Connecting /\
  connects (snd (CheckConnection 95 (env_ok 95) stream_in_error))
    = S (connects stream_in_error) /\
  (let r := QueueOut (mkQueueEnv 95 (env_ok 95) true 95 1000 95)
              (mkMessage 500 64 0) 7 60 stream_in_error in
   fst r = Status_default /\ pOutQueue (snd r) = [1000] /\
   count_ev is_handler_call (trace (snd r)) = O) /\
  CheckConnection 101 (env_ok 101) stream_in_error
    = (Status1 stError, stream_in_error) /\
  (let r := QueueOut (mkQueueEnv 101 (env_ok 101) true 101 1000 101)
              (mkMessage 500 64 0) 7 60 stream_in_error in
   fst r = Status1 stError /\ pOutQueue (snd r) = [] /\
   trace (snd r) = trace stream_in_error
                     ++ [EvHandleStatus 7 500 (Status1 stError)]).
Proof.
  repeat split; vm_compute; reflexivity.
Qed.

End StreamFacts.

(** * Properties of the multi-stream helper *)
Section MStreamFacts.
Import MStream.

(** ** [BindPendingStream] *)

Lemma bindFileRequest_fields cliconn :
  length (fSessionID cliconn) = 16%nat ->
  sessid (bindFileRequest cliconn) = fSessionID cliconn /\
  requestid (bindFileRequest cliconn) = kXR_bind /\
  dlen (bindFileRequest cliconn) = 0.
Proof.
  intros Hlen. unfold bindFileRequest, GetSessionID, memcpy. simpl sessid.
  split; [|split; reflexivity].
  rewrite firstn_all2 by lia. apply app_nil_r.
Qed.

(** C5: whatever [SendGenCommand] does to the connection and whatever it
    returns, [BindPendingStream] sends exactly one request, whose [sessid]
    field is the 16-byte session id of the connection and whose request id
    is [kXR_bind], through the substream it was given, and the
    [LastServerResp] of the connection it returns is the one of the
    connection it received. *)
Theorem BindPendingStream_session_binding
    (SendGenCommand : ClientRequest -> Z -> XrdClientConn ->
                      bool * XrdClientConn * ServerResponseBody_Bind)
    (cliconn : XrdClientConn) (substream newid : Z) :
  length (fSessionID cliconn) = 16%nat ->
  let r := BindPendingStream SendGenCommand cliconn substream newid in
  LastServerResp (r.1.2) = LastServerResp cliconn /\
  r.2 = [ReinitFDTable;
         SendGenCommandCall (bindFileRequest cliconn) substream] /\
  sessid (bindFileRequest cliconn) = fSessionID cliconn /\
  length (sessid (bindFileRequest cliconn)) = 16%nat /\
  requestid (bindFileRequest cliconn) = kXR_bind /\
  dlen (bindFileRequest cliconn) = 0.
Proof.
  intros Hlen r. subst r. unfold BindPendingStream.
  destruct (SendGenCommand _ _ _) as [[res c1] bnd]. cbn -[bindFileRequest].
  destruct (bindFileRequest_fields cliconn Hlen) as (Hs & Hr & Hd).
  rewrite Hs. repeat split; assumption.
Qed.

Lemma BindPendingStream_session_binding_witness :
  length (fSessionID conn_logged_in) = 16%nat /\
  LastServerResp
    ((BindPendingStream send_bound_3 conn_logged_in XRDCLI_PSOCKTEMP (-1)).1.2)
    = mkRespHeader [Byte.x00; Byte.x01] 4004 24 /\
  sessid (bindFileRequest conn_logged_in) = session_1_16.
Proof.
  pose proof (BindPendingStream_session_binding send_bound_3 conn_logged_in
                XRDCLI_PSOCKTEMP (-1) eq_refl) as (H1 & _ & H2 & _).
  split; [reflexivity|]. split; [exact H1 | exact H2].
Defined.

(** C9 (counterexample): the exchange succeeds, the server answers the
    bind with an error status, and the physical connection is no longer
    valid: [AddParallelStream] removes the pending stream and never calls
    [EstablishPendingParallelStream]. *)
Lemma unbound_stream_is_established_counterexample :
  ~ unbound_stream_is_established.
Proof.
  intros H.
  specialize (H send_refused (mkPhyEnv 5 false false (fun _ => 0))
                conn_logged_in).
  simpl in H.
  assert (Hin : EstablishPendingParallelStream (-1) ∈
          [TryConnectParallelStream; DoHandShake XRDCLI_PSOCKTEMP;
           ReinitFDTable; ReinitFDTable;
           SendGenCommandCall (bindFileRequest conn_logged_in) XRDCLI_PSOCKTEMP;
           IsValid; RemoveParallelStreamCall XRDCLI_PSOCKTEMP]).
  { apply list_elem_of_In. apply H; [lia | reflexivity |].
    split; [reflexivity | discriminate]. }
  repeat (apply elem_of_cons in Hin as [Hin|Hin]; [discriminate Hin|]).
  apply elem_of_nil in Hin. exact Hin.
Qed.

(** C9 (as amended): [BindPendingStream] returns what [SendGenCommand]
    returned, and leaves in [newid] the substream id of the response when
    the exchange succeeded with status [kXR_ok], the value it was given
    otherwise; so when the exchange succeeds with another status it returns
    true with [newid] unchanged.  [AddParallelStream], which passes -1,
    then goes on, provided the physical connection is valid, to
    [EstablishPendingParallelStream(-1)], and removes the pending stream
    only if that call fails. *)
Theorem BindPendingStream_status_not_ok
    (SendGenCommand : ClientRequest -> Z -> XrdClientConn ->
                      bool * XrdClientConn * ServerResponseBody_Bind)
    (cliconn : XrdClientConn) :
  (forall substream newid,
     let '(res, c1, bnd) :=
       SendGenCommand (bindFileRequest cliconn) substream cliconn in
     let r := BindPendingStream SendGenCommand cliconn substream newid in
     r.1.1.1 = res /\
     r.1.1.2 = (if res && (resp_status (LastServerResp c1) =? kXR_ok)
                then substreamid bnd else newid) /\
     (res = true -> resp_status (LastServerResp c1) <> kXR_ok ->
      r.1.1.1 = true /\ r.1.1.2 = newid) /\
     (r.1.1.2 <> newid ->
      res = true /\ resp_status (LastServerResp c1) = kXR_ok /\
      r.1.1.2 = substreamid bnd)) /\
  (forall pe,
     let '(res, c1, bnd) :=
       SendGenCommand (bindFileRequest cliconn) XRDCLI_PSOCKTEMP cliconn in
     0 <= pe_tryConnect pe -> pe_handShakeError pe = false ->
     res = true -> resp_status (LastServerResp c1) <> kXR_ok ->
     pe_isValid pe = true ->
     AddParallelStream SendGenCommand pe cliconn =
       (pe_establish pe (-1),
        set_LastServerResp (LastServerResp cliconn) c1,
        [TryConnectParallelStream; DoHandShake XRDCLI_PSOCKTEMP;
         ReinitFDTable; ReinitFDTable;
         SendGenCommandCall (bindFileRequest cliconn) XRDCLI_PSOCKTEMP;
         IsValid; EstablishPendingParallelStream (-1)]
        ++ (if pe_establish pe (-1) =? 0 then []
            else [RemoveParallelStreamCall XRDCLI_PSOCKTEMP]))).
Proof.
  split.
  - intros substream newid. unfold BindPendingStream.
    destruct (SendGenCommand _ _ _) as [[res c1] bnd]. cbn -[bindFileRequest].
    split; [reflexivity|]. split; [reflexivity|]. split.
    + intros -> Hne. apply Z.eqb_neq in Hne. rewrite Hne. split; reflexivity.
    + intros Hne. destruct res; [|contradiction]. simpl in *.
      destruct (Z.eqb_spec (resp_status (LastServerResp c1)) kXR_ok);
        [repeat split; assumption | contradiction].
  - intros pe. unfold AddParallelStream, BindPendingStream.
    destruct (SendGenCommand _ _ _) as [[res c1] bnd].
    intros Htry Hhs -> Hne Hvalid.
    apply Z.ltb_ge in Htry. apply Z.eqb_neq in Hne.
    rewrite Htry, Hhs. cbn -[bindFileRequest Z.eqb].
    rewrite Hne, Hvalid. cbn -[bindFileRequest Z.eqb].
    destruct (pe_establish pe (-1) =? 0) eqn:E; cbn -[bindFileRequest].
    + apply Z.eqb_eq in E. rewrite E. reflexivity.
    + reflexivity.
Qed.

Lemma BindPendingStream_status_not_ok_witness :
  AddParallelStream send_refused phy_ok conn_logged_in =
    (0, conn_logged_in,
     [TryConnectParallelStream; DoHandShake XRDCLI_PSOCKTEMP;
      ReinitFDTable; ReinitFDTable;
      SendGenCommandCall (bindFileRequest conn_logged_in) XRDCLI_PSOCKTEMP;
      IsValid; EstablishPendingParallelStream (-1)]).
Proof.
  pose proof (proj2 (BindPendingStream_status_not_ok send_refused
                       conn_logged_in) phy_ok) as H.
  simpl in H.
  assert (H0 : 0 <= 5) by lia.
  assert (H1 : 4003 <> kXR_ok) by discriminate.
  exact (H H0 eq_refl eq_refl H1 eq_refl).
Defined.

(** ** [SplitReadRequest] *)

Lemma i32_small x : - 2 ^ 31 <= x < 2 ^ 31 -> i32 x = x.
Proof.
  intros H. unfold i32, wrap. simpl Z.sub.
  rewrite Z.mod_small by lia. lia.
Qed.

Lemma i64_small x : - 2 ^ 63 <= x < 2 ^ 63 -> i64 x = x.
Proof.
  intros H. unfold i64, wrap. simpl Z.sub.
  rewrite Z.mod_small by lia. lia.
Qed.

Section SplitFacts.

Variable DFLT : Z.
Variable Pool : Type.
Variable count : Pool -> Z.
Variable select : Pool -> Z * Pool.

Local Abbreviation loop := (SplitReadRequest_loop Pool select).

(** Past the end of the request the loop stops, whatever the fuel. *)
Lemma SplitReadRequest_loop_done fuel offset len splt pp pool acc :
  len <= pp -> loop fuel offset len splt pp pool acc = Some (acc, pool).
Proof.
  intros H. apply Z.ltb_ge in H. destruct fuel; simpl; rewrite H; reflexivity.
Qed.

(** More fuel does not change a result. *)
Lemma SplitReadRequest_loop_mono fuel : forall fuel' offset len splt pp pool acc r,
  (fuel <= fuel')%nat ->
  loop fuel offset len splt pp pool acc = Some r ->
  loop fuel' offset len splt pp pool acc = Some r.
Proof.
  induction fuel as [|fuel IH]; intros fuel' offset len splt pp pool acc r Hle H.
  - simpl in H. destruct (pp <? len) eqn:E; [discriminate|].
    rewrite SplitReadRequest_loop_done by (apply Z.ltb_ge; exact E).
    exact H.
  - destruct fuel' as [|fuel']; [lia|]. simpl in *.
    destruct (pp <? len); [|exact H].
    destruct (select pool) as [sid pool1].
    apply IH; [lia | exact H].
Qed.

(** Where no addition leaves the range of its type, the loop started at
    [pp] inside the request ends and its chunks run from [offset + pp] to
    [offset + len]. *)
Lemma SplitReadRequest_loop_partition offset len splt fuel :
  forall pp pool acc,
  0 < splt -> 0 <= pp < len ->
  len - 1 + splt <= INT32_MAX ->
  - 2 ^ 63 <= offset -> offset + len <= INT64_MAX ->
  (Z.to_nat (len - pp) <= fuel)%nat ->
  exists new pool',
    loop fuel offset len splt pp pool acc = Some (acc ++ new, pool') /\
    contiguous (offset + pp) new (offset + len) /\
    Forall (fun ck => MStream.len ck <= splt) new /\
    new <> [].
Proof.
  unfold INT32_MAX, INT64_MAX.
  induction fuel as [|fuel IH]; intros pp pool acc Hs Hpp H32 Hlo Hhi Hfuel;
    [lia|].
  simpl. destruct (Z.ltb_spec pp len) as [_|?]; [|lia].
  destruct (select pool) as [sid pool1].
  rewrite (i64_small (pp + offset)) by lia.
  rewrite (i32_small (len - pp)) by lia.
  rewrite (i32_small (pp + splt)) by lia.
  destruct (Z.lt_ge_cases (pp + splt) len) as [Hmore|Hlast].
  - destruct (IH (pp + splt) pool1
                (acc ++ [mkChunk (pp + offset) (xrdmin (len - pp) splt) sid]))
      as (new & pool' & Heq & Hcont & Hall & _); try lia.
    exists (mkChunk (pp + offset) (xrdmin (len - pp) splt) sid :: new), pool'.
    rewrite Heq, <- app_assoc. split; [reflexivity|].
    assert (Hmin : xrdmin (len - pp) splt = splt).
    { unfold xrdmin. destruct (Z.ltb_spec (len - pp) splt); lia. }
    rewrite Hmin. simpl. repeat split; try lia.
    + replace (offset + pp + splt) with (offset + (pp + splt)) by lia.
      exact Hcont.
    + constructor; [simpl; lia | exact Hall].
    + discriminate.
  - rewrite SplitReadRequest_loop_done by lia.
    exists [mkChunk (pp + offset) (xrdmin (len - pp) splt) sid], pool1.
    split; [reflexivity|].
    assert (Hmin : xrdmin (len - pp) splt = len - pp).
    { unfold xrdmin. destruct (Z.ltb_spec (len - pp) splt); lia. }
    rewrite Hmin. simpl. repeat split; try lia.
    + constructor; [simpl; lia | constructor].
    + discriminate.
Qed.

(** The split size is the default one with at most one parallel stream and
    the larger of the default and [len / streams + 1] otherwise. *)
Lemma spltsize_of_spec pool len :
  0 <= len <= INT32_MAX ->
  spltsize_of DFLT Pool count pool len =
    if count pool <=? 1 then DFLT
    else Z.max DFLT (len / count pool + 1).
Proof.
  unfold INT32_MAX. intros Hlen. unfold spltsize_of, xrdmax.
  destruct (Z.leb_spec (count pool) 1) as [Hc|Hc].
  - destruct (Z.gtb_spec (count pool) 1); [lia | reflexivity].
  - destruct (Z.gtb_spec (count pool) 1); [|lia].
    rewrite Z.quot_div_nonneg by lia.
    assert (0 <= len / count pool /\ 2 * (len / count pool) <= len).
    { split; [apply Z.div_pos; lia|].
      pose proof (Z.mul_div_le len (count pool)). nia. }
    rewrite i32_small by lia.
    destruct (Z.gtb_spec DFLT (len / count pool + 1)); lia.
Qed.

(** [SplitReadRequest] on a request none of whose additions leaves the
    range of its type: with enough fuel it returns, and its chunks
    partition [offset, offset + len) in ascending order, none longer than
    the split size. *)
Lemma SplitReadRequest_partition_in_range fuel pool offset len :
  0 < DFLT ->
  0 < len <= INT32_MAX ->
  len - 1 + spltsize_of DFLT Pool count pool len <= INT32_MAX ->
  - 2 ^ 63 <= offset -> offset + len <= INT64_MAX ->
  (Z.to_nat len <= fuel)%nat ->
  exists chunks pool',
    SplitReadRequest DFLT Pool count select fuel pool offset len []
      = Some (chunks, pool') /\
    contiguous offset chunks (offset + len) /\
    Forall (fun ck => MStream.len ck <= spltsize_of DFLT Pool count pool len)
           chunks.
Proof.
  intros Hd Hlen H32 Hlo Hhi Hfuel. unfold SplitReadRequest.
  assert (Hs : 0 < spltsize_of DFLT Pool count pool len).
  { rewrite spltsize_of_spec by lia. destruct (_ <=? _); lia. }
  destruct (SplitReadRequest_loop_partition offset len
              (spltsize_of DFLT Pool count pool len) fuel 0 pool [])
    as (new & pool' & Heq & Hcont & Hall & _); try lia.
  exists new, pool'. rewrite Z.add_0_r in Hcont. auto.
Qed.

End SplitFacts.

(** C3 (counterexample): with four parallel streams the request of
    100 MiB is not split in 7 chunks, whatever the fuel. *)
Lemma split_100MiB_in_7_counterexample : ~ split_100MiB_in_7.
Proof.
  intros (fuel & chunks & pool' & H & Hlen).
  assert (H4 : Split16 4 pool_4 0 (100 * MiB) =
               Some ([mkChunk 0 26214401 0; mkChunk 26214401 26214401 1;
                      mkChunk 52428802 26214401 2;
                      mkChunk 78643203 26214397 3], pool_4))
    by (vm_compute; reflexivity).
  unfold Split16, SplitReadRequest in H, H4.
  apply (SplitReadRequest_loop_mono _ _ _ (fuel + 4)) in H; [|lia].
  apply (SplitReadRequest_loop_mono _ _ _ (fuel + 4)) in H4; [|lia].
  rewrite H4 in H. inversion H; subst. simpl in Hlen. discriminate Hlen.
Qed.

(** C3 (as amended): [SplitReadRequest(offset = 0, length = 100 MiB)] with
    four parallel streams and a default split size of 16 MiB uses the split
    size [max(16 MiB, 100 MiB / 4 + 1) = 26214401] and produces 4 chunks,
    three of 26214401 bytes and one of 26214397, which cover
    [0, 100 MiB) exactly, with the stream ids 0, 1, 2, 3 of the round-robin
    selector. *)
Theorem SplitReadRequest_100MiB_4_streams (fuel : nat) :
  (4 <= fuel)%nat ->
  let chunks := [mkChunk 0 26214401 0; mkChunk 26214401 26214401 1;
                 mkChunk 52428802 26214401 2; mkChunk 78643203 26214397 3] in
  spltsize_of (16 * MiB) RoundRobin RoundRobin_count pool_4 (100 * MiB)
    = 26214401 /\
  Z.max (16 * MiB) (100 * MiB / 4 + 1) = 26214401 /\
  Split16 fuel pool_4 0 (100 * MiB) = Some (chunks, pool_4) /\
  contiguous 0 chunks (100 * MiB) /\
  map streamtosend chunks = [0; 1; 2; 3].
Proof.
  intros Hfuel chunks.
  split; [vm_compute; reflexivity|]. split; [vm_compute; reflexivity|].
  split.
  - unfold Split16, SplitReadRequest.
    apply (SplitReadRequest_loop_mono _ _ 4); [exact Hfuel|].
    vm_compute. reflexivity.
  - split; [|reflexivity]. vm_compute. repeat split.
Qed.

Lemma SplitReadRequest_100MiB_4_streams_witness :
  (4 <= 4)%nat /\
  option_map (fun r => length (fst r)) (Split16 4 pool_4 0 (100 * MiB))
    = Some 4%nat.
Proof.
  assert (H : (4 <= 4)%nat) by lia.
  split; [exact H|].
  destruct (SplitReadRequest_100MiB_4_streams 4 H) as (_ & _ & -> & _).
  reflexivity.
Defined.

(** With a single stream and a split size of 16 MiB, the loop counter of
    a request of [INT32_MAX] bytes is always a multiple of 16 MiB in the
    range of [kXR_int32], hence below the length: the loop never ends. *)
Lemma SplitReadRequest_loop_wraps fuel : forall k pool acc,
  - 128 <= k <= 127 ->
  SplitReadRequest_loop RoundRobin RoundRobin_select fuel 0 INT32_MAX
    (16 * MiB) (16 * MiB * k) pool acc = None.
Proof.
  induction fuel as [|fuel IH]; intros k pool acc Hk; simpl.
  - destruct (Z.ltb_spec (16 * MiB * k) INT32_MAX) as [_|H]; [reflexivity|].
    unfold MiB, INT32_MAX in H. lia.
  - destruct (Z.ltb_spec (16 * MiB * k) INT32_MAX) as [_|H];
      [|unfold MiB, INT32_MAX in H; lia].
    destruct (Z.eq_dec k 127) as [->|Hne].
    + replace (i32 (16 * MiB * 127 + 16 * MiB)) with (16 * MiB * (-128))
        by (vm_compute; reflexivity).
      apply IH. lia.
    + replace (i32 (16 * MiB * k + 16 * MiB)) with (16 * MiB * (k + 1)).
      * apply IH. lia.
      * rewrite i32_small; unfold MiB; lia.
Qed.

(** C4 (the code departs from the claim): for a request of [INT32_MAX]
    bytes at offset 0 on a single stream, the loop counter reaches
    127 * 16 MiB, the next addition of the split size leaves the range of
    [kXR_int32] and wraps to [- 2 ^ 31], the chunk built there has length
    -1, and the loop never ends: no amount of fuel gives a result. *)
Theorem SplitReadRequest_int32_overflow :
  spltsize_of (16 * MiB) RoundRobin RoundRobin_count pool_1 INT32_MAX
    = 16 * MiB /\
  (127 * (16 * MiB) <? INT32_MAX) = true /\
  i32 (127 * (16 * MiB) + 16 * MiB) = - 2 ^ 31 /\
  xrdmin (i32 (INT32_MAX - - 2 ^ 31)) (16 * MiB) = -1 /\
  forall fuel, Split16 fuel pool_1 0 INT32_MAX = None.
Proof.
  repeat (split; [vm_compute; reflexivity|]).
  intros fuel. unfold Split16, SplitReadRequest.
  replace (spltsize_of _ _ _ _ _) with (16 * MiB) by (vm_compute; reflexivity).
  replace 0 with (16 * MiB * 0) at 2 by reflexivity.
  apply SplitReadRequest_loop_wraps. lia.
Qed.

End MStreamFacts.

(** * Further properties of the stream *)
Section StreamMore.
Import Stream.

(** ** Connecting *)

Lemma handler_calls_fault_cleanup s :
  count_ev is_handler_call (trace (fault_cleanup s))
    = count_ev is_handler_call (trace s).
Proof. apply fault_cleanup_count; reflexivity. Qed.

Lemma FailOutgoingHandlers_empty st s :
  pOutQueue s = [] -> trace (FailOutgoingHandlers st s) = trace s.
Proof. unfold FailOutgoingHandlers. intros ->. reflexivity. Qed.

(** With nothing queued, giving up calls no handler of a message. *)
Lemma handler_calls_giveup_empty st now s :
  pOutQueue s = [] ->
  count_ev is_handler_call (trace (fault_giveup st now (fault_cleanup s)))
    = count_ev is_handler_call (trace s).
Proof.
  intros Hq. unfold fault_giveup.
  assert (Hq' : pOutQueue (fault_cleanup s) = [])
    by (destruct (fault_cleanup_frame s) as (_ & _ & _ & _ & -> & _);
        exact Hq).
  rewrite FailOutgoingHandlers_empty by (destruct (_ =? 0); exact Hq').
  destruct (_ =? 0).
  - change (count_ev is_handler_call
              (trace (fault_cleanup s) ++ [EvFailAllHandlers st])
            = count_ev is_handler_call (trace s)).
    rewrite count_ev_snoc, handler_calls_fault_cleanup. simpl. lia.
  - apply handler_calls_fault_cleanup.
Qed.

Lemma Connect_IsOK env s : IsOK (fst (Connect env s)) = good_env env.
Proof.
  unfold Connect, good_env.
  destruct (IsOK (ce_initialize env)) eqn:E1; simpl; [|exact E1].
  destruct (IsOK (ce_connect env)) eqn:E2; simpl; [|exact E2].
  destruct (ce_addSocket env); simpl; [|reflexivity].
  destruct (ce_enableWrite env); reflexivity.
Qed.

(** X1: [Connect] returns an OK status exactly when the socket could be
    initialised and the connection initiated and the poller took the
    socket; it then leaves the stream [Connecting], and in every other case
    it leaves it in [Error].  In all cases it stamps the start of the
    attempt and counts it. *)
Theorem Connect_outcome (env : ConnectEnv) (s : Stream) :
  let r := Connect env s in
  IsOK r.1 = good_env env /\
  pStreamStatus r.2 = (if good_env env then Connecting else Error) /\
  pConnectionInitTime r.2 = ce_now env /\
  pConnectionCount r.2 = pConnectionCount s + 1.
Proof.
  cbv zeta.
  destruct (Connect_frame env s) as (_ & Hn & _). split; [|split; [|split]];
    [| | |exact Hn].
  - apply Connect_IsOK.
  - destruct (good_env env) eqn:G.
    + apply (Connect_good env s G).
    + destruct (poller_refuses env) eqn:R.
      * apply (Connect_refused env s R).
      * unfold Connect, good_env, poller_refuses in *.
        destruct (IsOK (ce_initialize env)); simpl in *; [|reflexivity].
        destruct (IsOK (ce_connect env)); simpl in *; [|reflexivity].
        destruct (ce_addSocket env), (ce_enableWrite env); discriminate.
  - unfold Connect.
    assert (Hfault : forall x : Stream,
      pConnectionInitTime
        (HandleStreamFault_with (fun s' => s')
           (Status2 stFatal errPollerError) (ce_fault_now env) x)
      = pConnectionInitTime x).
    { intros x. rewrite HandleStreamFault_with_fatal by reflexivity.
      unfold fault_giveup.
      match goal with |- context [FailOutgoingHandlers ?a ?b] =>
        destruct (FailOutgoingHandlers_frame a b) as (_ & _ & _ & -> & _) end.
      destruct (_ =? 0); simpl;
        destruct (fault_cleanup_frame x) as (_ & _ & _ & Hi & _); exact Hi. }
    destruct (IsOK (ce_initialize env)); simpl; [|reflexivity].
    destruct (IsOK (ce_connect env)); simpl; [|reflexivity].
    destruct (ce_addSocket env); simpl; [|rewrite Hfault; reflexivity].
    destruct (ce_enableWrite env); simpl; [reflexivity|].
    rewrite Hfault. reflexivity.
Qed.

(** ** Queueing *)

Lemma Connect_handlers_empty env s :
  pOutQueue s = [] ->
  count_ev is_handler_call (trace (snd (Connect env s)))
    = count_ev is_handler_call (trace s).
Proof.
  intros Hq. destruct (poller_refuses env) eqn:R.
  2:{ apply (Connect_not_refused env s R). }
  unfold poller_refuses, Connect in *.
  destruct (IsOK (ce_initialize env)); simpl in *; [|discriminate].
  destruct (IsOK (ce_connect env)); simpl in *; [|discriminate].
  assert (Hfault : forall x : Stream, pOutQueue x = [] ->
    count_ev is_handler_call
      (trace (HandleStreamFault_with (fun s' => s')
                (Status2 stFatal errPollerError) (ce_fault_now env) x))
    = count_ev is_handler_call (trace x)).
  { intros x Hx. rewrite HandleStreamFault_with_fatal by reflexivity.
    apply handler_calls_giveup_empty. exact Hx. }
  destruct (ce_addSocket env); simpl in *.
  - destruct (ce_enableWrite env); simpl in *; [discriminate|].
    rewrite Hfault by exact Hq. simpl. rewrite !count_ev_snoc. simpl. lia.
  - rewrite Hfault by exact Hq. simpl. rewrite !count_ev_snoc. simpl. lia.
Qed.

(** With nothing queued, a fault calls no handler of a message, whichever
    way it goes. *)
Lemma HandleStreamFault_handlers_empty st now env s :
  pOutQueue s = [] ->
  count_ev is_handler_call (trace (HandleStreamFault st now env s))
    = count_ev is_handler_call (trace s).
Proof.
  intros Hq.
  destruct (negb (IsFatal st)
            && (pConnectionCount s <? pConnectionRetry (cfg s))) eqn:E.
  - rewrite HandleStreamFault_retry by exact E. cbv zeta.
    set (X := set_pStreamStatus Connecting (fault_cleanup s)).
    assert (HX : pOutQueue X = [] /\
                 count_ev is_handler_call (trace X)
                   = count_ev is_handler_call (trace s)).
    { split; [|apply handler_calls_fault_cleanup].
      destruct (fault_cleanup_frame s) as (_ & _ & _ & _ & Hq' & _).
      change (pOutQueue X) with (pOutQueue (fault_cleanup s)).
      rewrite Hq'. exact Hq. }
    destruct HX as (Xq & Xc).
    destruct (_ <=? 0).
    + rewrite Connect_handlers_empty by exact Xq. exact Xc.
    + rewrite count_ev_emit, Xc. simpl. lia.
  - rewrite HandleStreamFault_giveup by exact E.
    apply handler_calls_giveup_empty. exact Hq.
Qed.

(** What an accepting [CheckConnection] leaves in place. *)
Lemma CheckConnection_ok now env s :
  IsOK (fst (CheckConnection now env s)) = true ->
  pOutQueue (snd (CheckConnection now env s)) = pOutQueue s /\
  heap (snd (CheckConnection now env s)) = heap s.
Proof.
  unfold CheckConnection.
  destruct (_ || _); [split; reflexivity|].
  destruct (_ && _); [discriminate|].
  rewrite Connect_IsOK. intros G.
  destruct (Connect_good env s G) as (_ & _ & Hq & Hh & _). split; assumption.
Qed.

Lemma CheckConnection_queue now env s :
  pOutQueue (snd (CheckConnection now env s)) = pOutQueue s \/
  pOutQueue (snd (CheckConnection now env s)) = [].
Proof.
  unfold CheckConnection.
  destruct (_ || _); [left; reflexivity|].
  destruct (_ && _); [left; reflexivity|]. apply Connect_queue.
Qed.

(** X2: the status [QueueOut] returns tells whether the message was
    queued.  With an OK status the message is at the back of the queue it
    found, under the address [new] returned, with the given handler, the
    expiration [now + timeout] and not owned by its helper.  With any other
    status nothing was queued. *)
Theorem QueueOut_queued_iff_ok (e : QueueEnv) (m : Message)
    (hndlr timeout : Z) (s : Stream) :
  qe_new e ∉ pOutQueue s ->
  let r := QueueOut e m hndlr timeout s in
  (IsOK r.1 = true ->
   pOutQueue r.2 = pOutQueue s ++ [qe_new e] /\
   heap r.2 = <[qe_new e := mkHelper m hndlr (qe_push_now e + timeout) false]>
                (heap s)) /\
  (IsOK r.1 = false ->
   (qe_new e ∉ pOutQueue r.2) /\
   (pOutQueue r.2 = pOutQueue s \/ pOutQueue r.2 = [])).
Proof.
  intros Hfresh. cbv zeta. unfold QueueOut.
  pose proof (CheckConnection_ok (qe_now e) (qe_connect e) s) as Hok.
  pose proof (CheckConnection_queue (qe_now e) (qe_connect e) s) as Hq.
  destruct (CheckConnection _ _ s) as [sc s1]. simpl in Hok, Hq.
  assert (Hfresh1 : qe_new e ∉ pOutQueue s1).
  { destruct Hq as [-> | ->]; [exact Hfresh | apply not_elem_of_nil]. }
  destruct (IsOK sc) eqn:Esc; simpl.
  2:{ rewrite Esc. split; [discriminate|]. intros _. split; assumption. }
  destruct (Hok eq_refl) as (Hq1 & Hh1).
  destruct (is_empty (pOutQueue s1)
            && StreamStatus_eqb (pStreamStatus s1) Connected) eqn:Eempty.
  2:{ simpl. rewrite Hq1, Hh1. split; [intros _; split; reflexivity|].
      discriminate. }
  destruct (qe_enableWrite e); simpl.
  { rewrite Hq1, Hh1. split; [intros _; split; reflexivity|]. discriminate. }
  split; [discriminate|]. intros _.
  unfold HandleStreamFault.
  rewrite HandleStreamFault_with_fatal by reflexivity.
  match goal with |- context [fault_giveup ?a ?b ?c] =>
    destruct (fault_giveup_frame a b c) as (_ & _ & _ & _ & ->) end.
  split; [apply not_elem_of_nil | right; reflexivity].
Qed.

Lemma QueueOut_queued_iff_ok_witness :
  (1003 ∉ pOutQueue stream_three_slots) /\
  pOutQueue
    (snd (QueueOut (mkQueueEnv 100 (env_ok 100) true 100 1003 100)
            (mkMessage 503 64 0) 10 60 stream_three_slots))
    = [1000; 1001; 1002; 1003].
Proof.
  assert (H : 1003 ∉ pOutQueue stream_three_slots).
  { apply (bool_decide_unpack _). vm_compute. exact I. }
  split; [exact H|].
  assert (Hok : IsOK (fst (QueueOut (mkQueueEnv 100 (env_ok 100) true 100 1003 100)
                             (mkMessage 503 64 0) 10 60 stream_three_slots))
                = true) by (vm_compute; reflexivity).
  exact (proj1 (proj1 (QueueOut_queued_iff_ok
                         (mkQueueEnv 100 (env_ok 100) true 100 1003 100)
                         (mkMessage 503 64 0) 10 60 stream_three_slots H)
                  Hok)).
Defined.



(** ** Ageing *)

(** Queue, helpers and current helper after [Tick]. *)
Lemma Tick_queue_heap now s :
  NoDup (pOutQueue s) ->
  pOutQueue (Tick now s)
    = List.filter (fun it => negb (Tick_removed now (pCurrentOut s) (heap s) it))
        (pOutQueue s) /\
  (forall a, heap (Tick now s) !! a =
     if bool_decide (a ∈ pOutQueue s)
        && Tick_removed now (pCurrentOut s) (heap s) a
     then None else heap s !! a) /\
  pCurrentOut (Tick now s) = pCurrentOut s /\
  count_ev is_handler_call (trace (Tick now s))
    = (count_ev is_handler_call (trace s)
       + count_ev is_handler_call
           (flat_map (Tick_events now (pCurrentOut s) (heap s)) (pOutQueue s)))%nat.
Proof.
  intros Hnd. unfold Tick.
  set (s0 := if pStreamNum s =? 0 then emit (EvTimeoutHandlers now) s else s).
  assert (H0 : pCurrentOut s0 = pCurrentOut s /\ pOutQueue s0 = pOutQueue s /\
               heap s0 = heap s /\
               count_ev is_handler_call (trace s0)
                 = count_ev is_handler_call (trace s)).
  { unfold s0. destruct (pStreamNum s =? 0); [|repeat split].
    repeat split. rewrite count_ev_emit. simpl. lia. }
  destruct H0 as (Hc & Hq & Hh & Ht). rewrite Hc, Hq, Hh.
  destruct (Tick_loop_spec now (pCurrentOut s) (heap s) (pOutQueue s) Hnd
              (heap s) (trace s0)) as (Rq & Rt & Rh); [reflexivity|].
  destruct (Tick_loop _ _ _ _ _) as [[q' hp'] tr']. simpl in Rq, Rt, Rh.
  simpl. rewrite Rq, Rt, count_ev_app, Ht, Hc. repeat split. exact Rh.
Qed.

Lemma filter_filter_implied {A} (f g : A -> bool) (l : list A) :
  (forall x, x ∈ l -> f x = true -> g x = true) ->
  List.filter f (List.filter g l) = List.filter f l.
Proof.
  induction l as [|x l IH]; intros H; simpl; [reflexivity|].
  assert (IH' : List.filter f (List.filter g l) = List.filter f l).
  { apply IH. intros y Hy. apply H. right. exact Hy. }
  destruct (g x) eqn:Eg; simpl.
  - rewrite IH'. reflexivity.
  - destruct (f x) eqn:Ef; [|exact IH'].
    rewrite (H x) in Eg; [discriminate | left | exact Ef].
Qed.

Lemma Tick_removed_mono t1 t2 cur hp it :
  t1 <= t2 -> Tick_removed t1 cur hp it = true ->
  Tick_removed t2 cur hp it = true.
Proof.
  unfold Tick_removed, Tick_expired. intros Hle.
  destruct (hp !! it) as [h|]; [|discriminate].
  intros H. apply andb_prop in H as [H1 H2]. rewrite H1. simpl.
  apply Z.leb_le in H2. apply Z.leb_le. lia.
Qed.

(** X4: ageing composes.  A [Tick] at [t1] followed by a [Tick] at a
    later or equal time [t2] leaves the queue and the helpers that a single
    [Tick] at [t2] leaves; in particular a second [Tick] at the same time
    removes nothing more. *)
Theorem Tick_then_Tick (t1 t2 : Z) (s : Stream) :
  NoDup (pOutQueue s) -> t1 <= t2 ->
  pOutQueue (Tick t2 (Tick t1 s)) = pOutQueue (Tick t2 s) /\
  heap (Tick t2 (Tick t1 s)) = heap (Tick t2 s) /\
  pCurrentOut (Tick t2 (Tick t1 s)) = pCurrentOut s.
Proof.
  intros Hnd Hle.
  destruct (Tick_queue_heap t1 s Hnd) as (Q1 & H1 & C1 & _).
  destruct (Tick_queue_heap t2 s Hnd) as (Q2 & H2 & C2 & _).
  assert (Hnd1 : NoDup (pOutQueue (Tick t1 s))).
  { rewrite Q1. apply NoDup_ListNoDup, List.NoDup_filter, NoDup_ListNoDup.
    exact Hnd. }
  destruct (Tick_queue_heap t2 (Tick t1 s) Hnd1) as (Q12 & H12 & C12 & _).
  set (cur := pCurrentOut s) in *. set (hp := heap s) in *.
  set (q := pOutQueue s) in *.
  (* an entry that survives t1 has the helper it had *)
  assert (Hkeep : forall it, Tick_removed t1 cur hp it = false ->
            Tick_removed t2 cur (heap (Tick t1 s)) it = Tick_removed t2 cur hp it).
  { intros it Hrm. unfold Tick_removed at 1 2. rewrite (H1 it), Hrm.
    rewrite andb_false_r. reflexivity. }
  split; [|split].
  - rewrite Q12, Q2, C1, Q1. fold cur hp q.
    rewrite (List.filter_ext_in
               (fun it => negb (Tick_removed t2 cur (heap (Tick t1 s)) it))
               (fun it => negb (Tick_removed t2 cur hp it))).
    + apply filter_filter_implied. intros x _ Hx.
      destruct (Tick_removed t1 cur hp x) eqn:E; [|reflexivity].
      rewrite (Tick_removed_mono t1 t2 cur hp x Hle E) in Hx. discriminate.
    + intros it Hin. apply List.filter_In in Hin as [_ Hk].
      apply negb_true_iff in Hk. rewrite (Hkeep it Hk). reflexivity.
  - apply map_eq. intros a. rewrite (H12 a), (H2 a), C1, Q1. fold cur hp q.
    rewrite (H1 a).
    destruct (Tick_removed t1 cur hp a) eqn:E1.
    + rewrite (Tick_removed_mono t1 t2 cur hp a Hle E1).
      rewrite !andb_true_r.
      destruct (bool_decide (a ∈ q)) eqn:Ea; simpl.
      * destruct (_ && _); reflexivity.
      * rewrite bool_decide_eq_false_2; [reflexivity|].
        intros Hin. apply list_elem_of_In, List.filter_In in Hin as [Hin _].
        apply bool_decide_eq_false in Ea. apply Ea, list_elem_of_In, Hin.
    + rewrite andb_false_r, (Hkeep a E1).
      destruct (Tick_removed t2 cur hp a) eqn:E2;
        rewrite ?andb_false_r, ?andb_true_r; [|reflexivity].
      rewrite (bool_decide_ext (a ∈ List.filter
                 (fun it => negb (Tick_removed t1 cur hp it)) q) (a ∈ q));
        [reflexivity|].
      rewrite !list_elem_of_In, List.filter_In, E1. simpl. tauto.
  - rewrite C12, C1. reflexivity.
Qed.

Lemma Tick_then_Tick_witness :
  NoDup (pOutQueue stream_three_slots) /\ 55 <= 100 /\
  pOutQueue (Tick 100 (Tick 55 stream_three_slots)) = [1000; 1002].
Proof.
  assert (Hnd : NoDup (pOutQueue stream_three_slots)).
  { apply (bool_decide_unpack _). vm_compute. exact I. }
  assert (Hle : 55 <= 100) by lia.
  repeat (split; [assumption|]).
  rewrite (proj1 (Tick_then_Tick 55 100 stream_three_slots Hnd Hle)).
  vm_compute. reflexivity.
Defined.

(** ** Faults *)



(** X6: the handlers of the queued messages are failed once.  After a
    forced [Disconnect], and after a fatal fault, the queue is empty, and
    whatever comes next, a fault of any kind or another [Disconnect], calls
    no handler of a message. *)
Theorem handlers_failed_once (s : Stream) (st0 : Status) (now0 : Z)
    (env0 : ConnectEnv) :
  IsFatal st0 = true ->
  forall s1, s1 = Disconnect true s \/ s1 = HandleStreamFault st0 now0 env0 s ->
  pOutQueue s1 = [] /\
  (forall st now env,
     count_ev is_handler_call (trace (HandleStreamFault st now env s1))
       = count_ev is_handler_call (trace s1)) /\
  (forall force,
     count_ev is_handler_call (trace (Disconnect force s1))
       = count_ev is_handler_call (trace s1)).
Proof.
  intros Hf s1 Hs1.
  assert (Hq : pOutQueue s1 = []).
  { destruct Hs1 as [-> | ->].
    - unfold Disconnect. simpl.
      match goal with |- context [FailOutgoingHandlers ?a ?b] =>
        destruct (FailOutgoingHandlers_frame a b) as (_ & _ & _ & _ & _ & _ & Hq)
      end.
      exact Hq.
    - unfold HandleStreamFault.
      rewrite HandleStreamFault_with_fatal by exact Hf.
      apply fault_giveup_frame. }
  split; [exact Hq|]. split.
  - intros st now env. apply HandleStreamFault_handlers_empty. exact Hq.
  - intros force. unfold Disconnect. rewrite Hq.
    replace (negb force && negb (is_empty [])) with false
      by (destruct force; reflexivity).
    set (s2 := if pStreamNum _ =? 0 then _ else _).
    assert (H2 : pOutQueue s2 = [] /\
                 count_ev is_handler_call (trace s2)
                   = count_ev is_handler_call (trace s1)).
    { unfold s2. destruct (_ =? 0); simpl; rewrite ?count_ev_snoc; simpl;
        (split; [exact Hq | lia]). }
    destruct H2 as (Q2 & T2).
    change (count_ev is_handler_call
              (trace (FailOutgoingHandlers
                        (Status2 stError errStreamDisconnect) s2)
               ++ [EvTransportDisconnect
                     (pStreamNum (FailOutgoingHandlers
                        (Status2 stError errStreamDisconnect) s2))])
            = count_ev is_handler_call (trace s1)).
    rewrite count_ev_snoc, FailOutgoingHandlers_empty by exact Q2.
    simpl. lia.
Qed.

Lemma handlers_failed_once_witness :
  IsFatal (Status2 stFatal errPollerError) = true /\
  count_ev is_handler_call
    (trace (Disconnect true (Disconnect true stream_three_slots))) = 3%nat.
Proof.
  split; [reflexivity|].
  rewrite (proj2 (proj2 (handlers_failed_once stream_three_slots
                           (Status2 stFatal errPollerError) 0 (env_ok 0)
                           eq_refl (Disconnect true stream_three_slots)
                           (or_introl eq_refl))) true).
  vm_compute. reflexivity.
Defined.

(** What the pieces of the fault handler and [Connect] do to the current
    helper, the incoming buffer and the handshake queue. *)
Lemma FailOutgoingHandlers_frame2 st s :
  let s' := FailOutgoingHandlers st s in
  pCurrentOut s' = pCurrentOut s /\ pIncoming s' = pIncoming s /\
  pOutQueueConnect s' = pOutQueueConnect s.
Proof.
  unfold FailOutgoingHandlers.
  destruct (FailOutgoingHandlers_loop _ _ _ _) as [hp tr]. repeat split.
Qed.

Lemma fault_giveup_frame2 st now s :
  let s' := fault_giveup st now s in
  pCurrentOut s' = pCurrentOut s /\ pIncoming s' = pIncoming s /\
  pOutQueueConnect s' = pOutQueueConnect s.
Proof.
  unfold fault_giveup.
  match goal with |- context [FailOutgoingHandlers st ?x] =>
    destruct (FailOutgoingHandlers_frame2 st x) as (-> & -> & ->) end.
  destruct (_ =? 0); repeat split.
Qed.

Lemma fault_cleanup_frame2 s :
  let s' := fault_cleanup s in
  pCurrentOut s' = 0 /\ pIncoming s' = 0 /\
  pOutQueueConnect s' = pOutQueueConnect s.
Proof. repeat split. Qed.

Lemma Connect_frame2 env s :
  let s' := snd (Connect env s) in
  (pCurrentOut s = 0 -> pCurrentOut s' = 0) /\
  (pIncoming s = 0 -> pIncoming s' = 0) /\
  pOutQueueConnect s' = pOutQueueConnect s.
Proof.
  unfold Connect.
  assert (Hfault : forall x : Stream,
    let y := HandleStreamFault_with (fun s' => s')
               (Status2 stFatal errPollerError) (ce_fault_now env) x in
    pCurrentOut y = 0 /\ pIncoming y = 0 /\
    pOutQueueConnect y = pOutQueueConnect x).
  { intros x y. subst y. rewrite HandleStreamFault_with_fatal by reflexivity.
    destruct (fault_giveup_frame2 (Status2 stFatal errPollerError)
                (ce_fault_now env) (fault_cleanup x)) as (-> & -> & ->).
    repeat split. }
  destruct (IsOK (ce_initialize env)); simpl; [|repeat split; auto].
  destruct (IsOK (ce_connect env)); simpl; [|repeat split; auto].
  destruct (ce_addSocket env); simpl.
  2:{ match goal with |- context [HandleStreamFault_with _ _ _ ?x] =>
        destruct (Hfault x) as (-> & -> & ->) end. repeat split. }
  destruct (ce_enableWrite env); simpl; [repeat split; auto|].
  match goal with |- context [HandleStreamFault_with _ _ _ ?x] =>
    destruct (Hfault x) as (-> & -> & ->) end. repeat split.
Qed.

Lemma HandleStreamFault_frame2 st now env s :
  let s' := HandleStreamFault st now env s in
  pCurrentOut s' = 0 /\ pIncoming s' = 0 /\
  pOutQueueConnect s' = pOutQueueConnect s.
Proof.
  cbv zeta.
  destruct (negb (IsFatal st)
            && (pConnectionCount s <? pConnectionRetry (cfg s))) eqn:E.
  - rewrite HandleStreamFault_retry by exact E. cbv zeta.
    destruct (_ <=? 0); [|repeat split].
    destruct (Connect_frame2 env
                (set_pStreamStatus Connecting (fault_cleanup s)))
      as (Hc & Hi & ->).
    rewrite Hc, Hi by reflexivity. repeat split.
  - rewrite HandleStreamFault_giveup by exact E.
    destruct (fault_giveup_frame2 st now (fault_cleanup s)) as (-> & -> & ->).
    repeat split.
Qed.

(** Queue and helpers across a fault that is retried and whose
    reconnection the poller does not refuse. *)
Lemma HandleStreamFault_retry_queue st now env s :
  IsFatal st = false ->
  pConnectionCount s < pConnectionRetry (cfg s) ->
  (pConnectionInitTime s + pConnectionWindow (cfg s) - now <=? 0)
    && poller_refuses env = false ->
  let s' := HandleStreamFault st now env s in
  pOutQueue s' = pOutQueue s /\ heap s' = heap s /\
  count_ev is_handler_call (trace s') = count_ev is_handler_call (trace s).
Proof.
  intros Hf Hlt Hp. cbv zeta.
  rewrite HandleStreamFault_retry
    by (rewrite Hf; simpl; apply Z.ltb_lt; exact Hlt).
  cbv zeta.
  set (X := set_pStreamStatus Connecting (fault_cleanup s)).
  assert (HX : pOutQueue X = pOutQueue s /\ heap X = heap s /\
               count_ev is_handler_call (trace X)
                 = count_ev is_handler_call (trace s)).
  { destruct (fault_cleanup_frame s) as (_ & _ & _ & _ & Hq & Hh & _).
    repeat split; try assumption. apply handler_calls_fault_cleanup. }
  destruct HX as (Xq & Xh & Xc).
  destruct (_ <=? 0).
  - simpl in Hp.
    destruct (Connect_not_refused env X Hp) as (-> & -> & -> & _).
    repeat split; assumption.
  - change (pOutQueue (emit _ X)) with (pOutQueue X).
    change (heap (emit _ X)) with (heap X).
    rewrite count_ev_emit, Xq, Xh, Xc. simpl. repeat split. lia.
Qed.

(** X7: every fault, whichever way it goes, forgets the current helper and
    the partly read incoming message.  When the fault is retried with the
    user queue kept, the next [WriteMessage] therefore picks the front of
    the queue again and sets its cursor to 0: a message that was partly
    written is sent again from its first byte. *)
Theorem fault_restarts_message (st : Status) (now : Z) (env : ConnectEnv)
    (s : Stream) :
  let s' := HandleStreamFault st now env s in
  (pCurrentOut s' = 0 /\ pIncoming s' = 0) /\
  forall a rest h,
    a <> 0 -> pOutQueue s = a :: rest -> heap s !! a = Some h ->
    IsFatal st = false ->
    pConnectionCount s < pConnectionRetry (cfg s) ->
    (pConnectionInitTime s + pConnectionWindow (cfg s) - now <=? 0)
      && poller_refuses env = false ->
    forall e, exists s2 h2,
      WriteMessage_pick e UserQueue s' = (None, s2) /\
      pCurrentOut s2 = a /\ heap s2 !! a = Some h2 /\
      m_cursor (msg h2) = 0 /\ m_size (msg h2) = m_size (msg h).
Proof.
  cbv zeta.
  destruct (HandleStreamFault_frame2 st now env s) as (Hc & Hi & _).
  split; [split; assumption|].
  intros a rest h Hne Hq Hh Hf Hlt Hp e.
  destruct (HandleStreamFault_retry_queue st now env s Hf Hlt Hp)
    as (Hq' & Hh' & _).
  destruct (WriteMessage_pick_spec e UserQueue
              (HandleStreamFault st now env s) a rest h)
    as (s2 & h2 & Hpick & Hc2 & Hh2 & _ & _ & Hsz & Hcur);
    [simpl; congruence | congruence | left; exact Hc | exact Hne |].
  rewrite Hc in Hcur. simpl in Hcur.
  exists s2, h2. repeat split; assumption.
Qed.

Lemma fault_restarts_message_witness :
  let s' := HandleStreamFault (Status2 stError errSocketError) 100
              (env_ok 100) stream_three_slots in
  (m_cursor ∘ msg) <$> (heap stream_three_slots !! 1000) = Some 16 /\
  exists s2 h2,
    WriteMessage_pick sock_1500_then_full UserQueue s' = (None, s2) /\
    pCurrentOut s2 = 1000 /\ heap s2 !! 1000 = Some h2 /\
    m_cursor (msg h2) = 0 /\ m_size (msg h2) = 64.
Proof.
  cbv zeta. split; [reflexivity|].
  assert (H1 : 1000 <> 0) by lia.
  assert (H2 : pConnectionCount stream_three_slots
               < pConnectionRetry (cfg stream_three_slots)) by (simpl; lia).
  exact (proj2 (fault_restarts_message (Status2 stError errSocketError) 100
                  (env_ok 100) stream_three_slots)
           1000 [1001; 1002] (mkHelper (mkMessage 500 64 16) 7 50 false)
           H1 eq_refl eq_refl eq_refl H2 eq_refl sock_1500_then_full).
Defined.

(** ** Timeout of the connection attempt *)

Lemma delete_helpers_count p q :
  quiet p -> forall hp tr,
  count_ev p (snd (delete_helpers q hp tr)) = count_ev p tr.
Proof.
  intros Hq. induction q as [|it rest IH]; intros hp tr; simpl;
    [reflexivity|].
  destruct (hp !! it) as [h|]; [|apply IH].
  rewrite IH, count_ev_app, count_ev_helper_dtor by assumption. lia.
Qed.

Lemma Connect_status env s :
  pStreamStatus (snd (Connect env s))
    = if good_env env then Connecting else Error.
Proof.
  destruct (good_env env) eqn:G.
  - apply (Connect_good env s G).
  - destruct (poller_refuses env) eqn:R.
    + apply (Connect_refused env s R).
    + unfold Connect, good_env, poller_refuses in *.
      destruct (IsOK (ce_initialize env)); simpl in *; [|reflexivity].
      destruct (IsOK (ce_connect env)); simpl in *; [|reflexivity].
      destruct (ce_addSocket env), (ce_enableWrite env); discriminate.
Qed.

(** X8: a timeout event on a connecting stream does nothing before
    [connectionInitTime + connectionWindow].  From that time on it deletes
    the handshake messages and raises a fault; as the window has then
    passed, the fault handler, while retries are left, reconnects at once
    and never registers a task; with no retry left the stream goes to
    [Error]. *)
Theorem HandleConnectingTimeout_spec (now fault_now : Z) (env : ConnectEnv)
    (s : Stream) :
  let s' := HandleConnectingTimeout now fault_now env s in
  (now < pConnectionInitTime s + pConnectionWindow (cfg s) -> s' = s) /\
  (pConnectionInitTime s + pConnectionWindow (cfg s) <= now ->
   now <= fault_now ->
   pOutQueueConnect s' = [] /\ registered s' = registered s /\
   (pConnectionCount s < pConnectionRetry (cfg s) ->
    connects s' = S (connects s) /\
    pConnectionCount s' = pConnectionCount s + 1 /\
    pStreamStatus s' = if good_env env then Connecting else Error) /\
   (pConnectionRetry (cfg s) <= pConnectionCount s ->
    connects s' = connects s /\ pStreamStatus s' = Error /\
    pErrorTime s' = fault_now)).
Proof.
  cbv zeta. unfold HandleConnectingTimeout.
  destruct (Z.leb_spec (pConnectionInitTime s + pConnectionWindow (cfg s)) now)
    as [Hpast|Hnot]; (split; [intros H; first [lia | reflexivity]|]);
    [|intros H; lia].
  intros _ Hclock.
  pose proof (delete_helpers_count is_connect_call (pOutQueueConnect s)
                quiet_is_connect_call (heap s) (trace s)) as Dk.
  pose proof (delete_helpers_count is_task (pOutQueueConnect s)
                quiet_is_task (heap s) (trace s)) as Dr.
  destruct (delete_helpers _ _ _) as [hp tr]. simpl in Dk, Dr.
  set (sd := set_pOutQueueConnect [] (set_trace tr (set_heap hp s))).
  assert (Hsd : connects sd = connects s /\ registered sd = registered s)
    by (split; assumption).
  destruct Hsd as (Sk & Sr).
  destruct (HandleStreamFault_frame2 (Status2 stError errConnectionError)
              fault_now env sd) as (_ & _ & Hqc).
  split; [exact Hqc|].
  destruct (Z.ltb_spec (pConnectionCount s) (pConnectionRetry (cfg s)))
    as [Hlt|Hge].
  - rewrite HandleStreamFault_retry
      by (simpl; apply Z.ltb_lt; exact Hlt).
    cbv zeta.
    change (pConnectionInitTime sd) with (pConnectionInitTime s).
    change (cfg sd) with (cfg s).
    destruct (Z.leb_spec (pConnectionInitTime s + pConnectionWindow (cfg s)
                          - fault_now) 0) as [_|Hbad]; [|lia].
    set (X := set_pStreamStatus Connecting (fault_cleanup sd)).
    destruct (Connect_frame env X) as (_ & Hn & Hk & Hr).
    assert (HX : connects X = connects s /\ registered X = registered s).
    { split; [rewrite <- Sk; apply connects_cleanup
             | rewrite <- Sr; apply registered_cleanup]. }
    destruct HX as (Xk & Xr).
    split; [rewrite Hr; exact Xr|]. split; [|intros; lia].
    intros _. rewrite Hk, Hn, Xk, Connect_status.
    destruct (fault_cleanup_frame sd) as (_ & _ & Hc & _).
    change (pConnectionCount X) with (pConnectionCount (fault_cleanup sd)).
    rewrite Hc. repeat split.
  - assert (E : negb (IsFatal (Status2 stError errConnectionError))
                && (pConnectionCount sd <? pConnectionRetry (cfg sd)) = false)
      by (simpl; apply Z.ltb_ge; exact Hge).
    rewrite HandleStreamFault_giveup by exact E.
    destruct (fault_giveup_frame (Status2 stError errConnectionError)
                fault_now (fault_cleanup sd)) as (_ & Hs & _ & He & _).
    split.
    { unfold registered at 1. rewrite fault_giveup_count
        by (try apply quiet_is_task; reflexivity).
      fold (registered (fault_cleanup sd)).
      rewrite registered_cleanup. exact Sr. }
    split; [intros; lia|]. intros _.
    rewrite Hs, He. repeat split.
    unfold connects at 1. rewrite fault_giveup_count
      by (try apply quiet_is_connect_call; reflexivity).
    fold (connects (fault_cleanup sd)).
    rewrite connects_cleanup. exact Sk.
Qed.

Lemma HandleConnectingTimeout_spec_witness :
  let s1 := snd (Connect (env_ok 0) (Stream_new 0 cfg_30_3)) in
  HandleConnectingTimeout 29 29 (env_ok 29) s1 = s1 /\
  registered (HandleConnectingTimeout 30 30 (env_ok 30) s1) = registered s1 /\
  connects (HandleConnectingTimeout 30 30 (env_ok 30) s1) = S (connects s1).
Proof.
  cbv zeta.
  set (s1 := snd (Connect (env_ok 0) (Stream_new 0 cfg_30_3))).
  assert (H0 : 29 < pConnectionInitTime s1 + pConnectionWindow (cfg s1))
    by (vm_compute; reflexivity).
  assert (H1 : pConnectionInitTime s1 + pConnectionWindow (cfg s1) <= 30)
    by (vm_compute; discriminate).
  assert (H2 : 30 <= 30) by lia.
  assert (H3 : pConnectionCount s1 < pConnectionRetry (cfg s1))
    by (vm_compute; reflexivity).
  split.
  - exact (proj1 (HandleConnectingTimeout_spec 29 29 (env_ok 29) s1) H0).
  - destruct (proj2 (HandleConnectingTimeout_spec 30 30 (env_ok 30) s1) H1 H2)
      as (_ & Hr & Hretry & _).
    split; [exact Hr|]. exact (proj1 (Hretry H3)).
Defined.

(** ** Writing *)

Lemma with_cursor_same h : with_cursor (m_cursor (msg h)) h = h.
Proof. destruct h as [[ad sz cu] hd ex ow]. reflexivity. Qed.

(** The state in which [WriteMessage] starts to write: the front helper is
    current, with its cursor at 0 if it has just been picked. *)
Lemma WriteMessage_pick_eq e w s a rest h :
  get_queue w s = a :: rest -> heap s !! a = Some h ->
  pCurrentOut s = 0 \/ pCurrentOut s = a -> a <> 0 ->
  WriteMessage_pick e w s =
    (None,
     set_heap (<[a := with_cursor (if pCurrentOut s =? 0 then 0
                                   else m_cursor (msg h)) h]> (heap s))
       (set_pCurrentOut a s)).
Proof.
  intros Hq Hh Hcur Hne. unfold WriteMessage_pick.
  destruct (Z.eqb_spec (pCurrentOut s) 0) as [H0|H0].
  - rewrite Hq. simpl. rewrite Hh. reflexivity.
  - destruct Hcur as [?|Hcur]; [contradiction|].
    rewrite with_cursor_same, insert_id by exact Hh.
    rewrite <- Hcur. destruct s; reflexivity.
Qed.

(** A run of [WriteMessage] whose first call of [::write] takes nothing:
    the status is [(stOK, suContinue)] when [errno] says the socket is
    full, [(stError, errSocketError, errno)] otherwise, and only the current
    helper, the cursor and the trace have changed. *)
Lemma WriteMessage_first_write_fails e w s a rest h :
  a <> 0 -> get_queue w s = a :: rest -> heap s !! a = Some h ->
  pCurrentOut s = 0 \/ pCurrentOut s = a ->
  0 <= m_cursor (msg h) <= m_size (msg h) -> m_size (msg h) < 2 ^ 32 ->
  let c0 := if pCurrentOut s =? 0 then 0 else m_cursor (msg h) in
  let left := m_size (msg h) - c0 in
  0 < left ->
  sys_write (we_sock e O) left <= 0 ->
  let errno := sys_errno (we_sock e O) in
  let blocked := (errno =? EAGAIN) || (errno =? EWOULDBLOCK) in
  WriteMessage e w s =
    Some (if blocked then Status2 stOK suContinue
          else mkStatus stError errSocketError errno,
          set_trace (trace s ++ [EvWrite left (sys_write (we_sock e O) left)])
            (set_heap (<[a := with_cursor (if blocked then c0 else 0) h]>
                         (heap s))
               (set_pCurrentOut a s))).
Proof.
  intros Hne Hq Hh Hcur Hb Hsz c0 left Hleft Hfail errno blocked.
  unfold WriteMessage.
  rewrite (WriteMessage_pick_eq e w s a rest h Hq Hh Hcur Hne). fold c0.
  unfold WriteMessage_write.
  cbn [pCurrentOut set_heap set_pCurrentOut heap trace].
  rewrite lookup_insert_eq.
  cbn [with_cursor msg SetCursor m_size m_cursor handler expires ownMessage].
  assert (Hu : u32 (m_size (msg h) - c0) = left).
  { unfold u32, left. apply Z.mod_small.
    unfold c0 in *. destruct (pCurrentOut s =? 0); lia. }
  rewrite Hu.
  destruct (Z.to_nat left) as [|n] eqn:En; [lia|].
  cbn [write_loop].
  destruct (Z.eqb_spec left 0) as [?|_]; [lia|].
  destruct (Z.leb_spec (sys_write (we_sock e O) left) 0) as [_|?]; [|lia].
  fold errno. fold blocked.
  destruct blocked;
    cbn [set_trace set_heap heap pCurrentOut trace SetCursor m_addr m_size];
    rewrite insert_insert_eq; reflexivity.
Qed.

(** X9: on a connected stream, a write event whose first [::write] finds
    the socket full ([EAGAIN] or [EWOULDBLOCK]) raises no fault: the status
    and the queue are as before, the front helper is now the current one,
    and its cursor is where it was, or at 0 if it has just been picked. *)
Theorem ConnectedReadyToWrite_would_block (e : WriteEnv) (fault_now : Z)
    (env : ConnectEnv) (s : Stream) (a : Z) (rest : list Z)
    (h : OutMessageHelper) :
  a <> 0 -> pOutQueue s = a :: rest -> heap s !! a = Some h ->
  pCurrentOut s = 0 \/ pCurrentOut s = a ->
  0 <= m_cursor (msg h) <= m_size (msg h) -> m_size (msg h) < 2 ^ 32 ->
  let c0 := if pCurrentOut s =? 0 then 0 else m_cursor (msg h) in
  0 < m_size (msg h) - c0 ->
  sys_write (we_sock e O) (m_size (msg h) - c0) <= 0 ->
  sys_errno (we_sock e O) = EAGAIN \/ sys_errno (we_sock e O) = EWOULDBLOCK ->
  exists s2,
    ConnectedReadyToWrite e fault_now env s = Some s2 /\
    pStreamStatus s2 = pStreamStatus s /\ pOutQueue s2 = a :: rest /\
    pCurrentOut s2 = a /\ heap s2 = <[a := with_cursor c0 h]> (heap s) /\
    pConnectionCount s2 = pConnectionCount s /\
    trace s2 = trace s ++ [EvWrite (m_size (msg h) - c0)
                             (sys_write (we_sock e O) (m_size (msg h) - c0))].
Proof.
  intros Hne Hq Hh Hcur Hb Hsz c0 Hleft Hfail Herr.
  unfold ConnectedReadyToWrite.
  rewrite (WriteMessage_first_write_fails e UserQueue s a rest h
             Hne Hq Hh Hcur Hb Hsz Hleft Hfail).
  fold c0.
  assert ((sys_errno (we_sock e O) =? EAGAIN)
          || (sys_errno (we_sock e O) =? EWOULDBLOCK) = true) as ->.
  { apply orb_true_iff. destruct Herr as [-> | ->];
      [left | right]; apply Z.eqb_refl. }
  cbn [IsOK status Status2 negb].
  eexists. split; [reflexivity|].
  cbn [set_trace set_heap set_pCurrentOut pStreamStatus pOutQueue pCurrentOut
       heap pConnectionCount trace].
  rewrite Hq. repeat split.
Qed.

Lemma ConnectedReadyToWrite_would_block_witness :
  exists s2,
    ConnectedReadyToWrite (mkWriteEnv (fun _ => WriteFail EAGAIN) true) 100
      (env_ok 100) stream_three_slots = Some s2 /\
    pStreamStatus s2 = Connected /\ pOutQueue s2 = [1000; 1001; 1002].
Proof.
  assert (H1 : 1000 <> 0) by lia.
  assert (H2 : 0 <= 16 <= 64) by lia.
  assert (H3 : 64 < 2 ^ 32) by lia.
  assert (H4 : 0 < 64 - 16) by lia.
  assert (H5 : -1 <= 0) by lia.
  destruct (ConnectedReadyToWrite_would_block
              (mkWriteEnv (fun _ => WriteFail EAGAIN) true) 100 (env_ok 100)
              stream_three_slots 1000 [1001; 1002]
              (mkHelper (mkMessage 500 64 16) 7 50 false)
              H1 eq_refl eq_refl (or_intror eq_refl) H2 H3 H4 H5
              (or_introl eq_refl))
    as (s2 & Heq & Hs & Hq & _).
  exists s2. repeat split; assumption.
Defined.

(** X10: on a connected stream with retries left, a write event whose
    first [::write] fails for another reason than a full socket raises a
    fault that is retried, and the message is not lost: unless the poller
    refuses the new socket, the queue is as it was, no handler has been
    called, no helper is current any more and the cursor of the front
    message is back at 0. *)
Theorem ConnectedReadyToWrite_error_keeps_message (e : WriteEnv)
    (fault_now : Z) (env : ConnectEnv) (s : Stream) (a : Z) (rest : list Z)
    (h : OutMessageHelper) :
  a <> 0 -> pOutQueue s = a :: rest -> heap s !! a = Some h ->
  pCurrentOut s = 0 \/ pCurrentOut s = a ->
  0 <= m_cursor (msg h) <= m_size (msg h) -> m_size (msg h) < 2 ^ 32 ->
  let c0 := if pCurrentOut s =? 0 then 0 else m_cursor (msg h) in
  0 < m_size (msg h) - c0 ->
  sys_write (we_sock e O) (m_size (msg h) - c0) <= 0 ->
  sys_errno (we_sock e O) <> EAGAIN -> sys_errno (we_sock e O) <> EWOULDBLOCK ->
  pConnectionCount s < pConnectionRetry (cfg s) ->
  (pConnectionInitTime s + pConnectionWindow (cfg s) - fault_now <=? 0)
    && poller_refuses env = false ->
  exists s3,
    ConnectedReadyToWrite e fault_now env s = Some s3 /\
    pOutQueue s3 = a :: rest /\ pCurrentOut s3 = 0 /\
    heap s3 = <[a := with_cursor 0 h]> (heap s) /\
    count_ev is_handler_call (trace s3) = count_ev is_handler_call (trace s) /\
    (if pConnectionInitTime s + pConnectionWindow (cfg s) - fault_now <=? 0
     then connects s3 = S (connects s) /\ registered s3 = registered s
     else connects s3 = connects s /\ registered s3 = S (registered s)).
Proof.
  intros Hne Hq Hh Hcur Hb Hsz c0 Hleft Hfail He1 He2 Hlt Hp.
  unfold ConnectedReadyToWrite.
  rewrite (WriteMessage_first_write_fails e UserQueue s a rest h
             Hne Hq Hh Hcur Hb Hsz Hleft Hfail).
  fold c0.
  assert ((sys_errno (we_sock e O) =? EAGAIN)
          || (sys_errno (we_sock e O) =? EWOULDBLOCK) = false) as ->.
  { apply orb_false_iff. split; apply Z.eqb_neq; assumption. }
  cbn [IsOK status negb].
  set (st := mkStatus stError errSocketError (sys_errno (we_sock e O))).
  set (s2 := set_trace _ _).
  destruct (HandleStreamFault_retry_queue st fault_now env s2 eq_refl Hlt Hp)
    as (Q & H & C).
  destruct (HandleStreamFault_frame2 st fault_now env s2) as (Cu & _ & _).
  assert (C2 : count_ev is_handler_call (trace s2)
                 = count_ev is_handler_call (trace s) /\
               connects s2 = connects s /\ registered s2 = registered s).
  { unfold connects, registered, s2. cbn [trace set_trace].
    rewrite !count_ev_snoc. simpl. repeat split; lia. }
  destruct C2 as (C2 & K2 & R2).
  eexists. split; [reflexivity|].
  rewrite Q, H, C, Cu, C2. unfold s2 at 1 2.
  cbn [pOutQueue heap set_trace set_heap set_pCurrentOut]. rewrite Hq.
  repeat (split; [reflexivity|]).
  rewrite HandleStreamFault_retry by (simpl; apply Z.ltb_lt; exact Hlt).
  cbv zeta.
  change (pConnectionInitTime s2) with (pConnectionInitTime s).
  change (cfg s2) with (cfg s).
  set (X := set_pStreamStatus Connecting (fault_cleanup s2)).
  assert (HX : connects X = connects s /\ registered X = registered s).
  { split; [rewrite <- K2; apply connects_cleanup
           | rewrite <- R2; apply registered_cleanup]. }
  destruct HX as (Xk & Xr).
  destruct (_ <=? 0).
  - destruct (Connect_frame env X) as (_ & _ & -> & ->).
    rewrite Xk, Xr. split; reflexivity.
  - rewrite registered_emit_task, connects_emit_task, Xk, Xr.
    split; reflexivity.
Qed.

Lemma ConnectedReadyToWrite_error_keeps_message_witness :
  exists s3,
    ConnectedReadyToWrite (mkWriteEnv (fun _ => WriteFail 104) true) 100
      (env_ok 100) stream_three_slots = Some s3 /\
    pOutQueue s3 = [1000; 1001; 1002] /\ pCurrentOut s3 = 0.
Proof.
  assert (H1 : 1000 <> 0) by lia.
  assert (H2 : 0 <= 16 <= 64) by lia.
  assert (H3 : 64 < 2 ^ 32) by lia.
  assert (H4 : 0 < 64 - 16) by lia.
  assert (H5 : -1 <= 0) by lia.
  assert (H6 : 104 <> EAGAIN) by discriminate.
  assert (H7 : 104 <> EWOULDBLOCK) by discriminate.
  assert (H8 : pConnectionCount stream_three_slots
               < pConnectionRetry (cfg stream_three_slots)) by (simpl; lia).
  destruct (ConnectedReadyToWrite_error_keeps_message
              (mkWriteEnv (fun _ => WriteFail 104) true) 100 (env_ok 100)
              stream_three_slots 1000 [1001; 1002]
              (mkHelper (mkMessage 500 64 16) 7 50 false)
              H1 eq_refl eq_refl (or_intror eq_refl) H2 H3 H4 H5 H6 H7 H8
              eq_refl)
    as (s3 & Heq & Hq & Hc & _).
  exists s3. repeat split; assumption.
Defined.

Lemma call_handler_addr h h' st :
  handler h' = handler h -> m_addr (msg h') = m_addr (msg h) ->
  call_handler h' st = call_handler h st.
Proof. unfold call_handler. intros -> ->. reflexivity. Qed.

Lemma helper_dtor_addr h h' :
  ownMessage h' = ownMessage h -> m_addr (msg h') = m_addr (msg h) ->
  helper_dtor h' = helper_dtor h.
Proof. unfold helper_dtor. intros -> ->. reflexivity. Qed.

(** A run of [WriteMessage] whose first call of [::write] finds room for
    all that is left of the front message. *)
Lemma WriteMessage_room e w s a rest h cap :
  a <> 0 -> get_queue w s = a :: rest -> heap s !! a = Some h ->
  pCurrentOut s = 0 \/ pCurrentOut s = a ->
  let c0 := if pCurrentOut s =? 0 then 0 else m_cursor (msg h) in
  let left := m_size (msg h) - c0 in
  0 <= c0 -> 0 <= left -> m_size (msg h) < 2 ^ 32 ->
  we_sock e O = WriteRoom cap -> left <= Z.pos cap ->
  WriteMessage e w s =
    Some (if is_empty rest && negb (we_enableWrite e)
          then Status2 stFatal errPollerError else Status_default,
          let s1 :=
            set_pCurrentOut 0
              (set_trace
                 (trace s ++ (if left =? 0 then [] else [EvWrite left left])
                    ++ call_handler h Status_default ++ helper_dtor h)
                 (set_heap (delete a (heap s)) (set_queue w rest s))) in
          if is_empty rest then emit (EvEnableWriteNotification false) s1
          else s1).
Proof.
  intros Hne Hq Hh Hcur c0 left Hc0 Hleft Hsz Hsock Hcap.
  unfold WriteMessage.
  rewrite (WriteMessage_pick_eq e w s a rest h Hq Hh Hcur Hne). fold c0.
  unfold WriteMessage_write.
  cbn [pCurrentOut set_heap set_pCurrentOut heap trace].
  rewrite lookup_insert_eq.
  cbn [with_cursor msg SetCursor m_size m_cursor handler expires ownMessage].
  assert (Hu : u32 (m_size (msg h) - c0) = left)
    by (unfold u32, left; apply Z.mod_small; lia).
  rewrite Hu.
  assert (Hloop : forall m tr,
    write_loop (Z.to_nat left) (we_sock e) 0 m left tr
    = Some (None, if left =? 0 then m else AdvanceCursor left m,
            tr ++ (if left =? 0 then [] else [EvWrite left left]))).
  { intros m tr. destruct (Z.eqb_spec left 0) as [H0|H0].
    - rewrite H0. simpl. rewrite app_nil_r. reflexivity.
    - destruct (Z.to_nat left) as [|n] eqn:En; [lia|].
      cbn [write_loop]. destruct (Z.eqb_spec left 0) as [?|_]; [lia|].
      rewrite Hsock. cbn [sys_write].
      rewrite Z.min_l by exact Hcap.
      destruct (Z.leb_spec left 0) as [?|_]; [lia|].
      rewrite Z.sub_diag.
      change (u32 0) with 0.
      destruct n; reflexivity. }
  rewrite Hloop.
  match goal with |- context [mkHelper ?m (handler h) (expires h) (ownMessage h)] =>
    set (h' := mkHelper m (handler h) (expires h) (ownMessage h)) end.
  rewrite (call_handler_addr h h')
    by (try reflexivity; unfold h'; cbn [msg]; destruct (left =? 0); reflexivity).
  rewrite (helper_dtor_addr h h')
    by (try reflexivity; unfold h'; cbn [msg]; destruct (left =? 0); reflexivity).
  destruct w;
    cbn [get_queue set_queue pOutQueue pOutQueueConnect set_trace set_heap
         set_pOutQueue set_pOutQueueConnect set_pCurrentOut trace heap
         pCurrentOut] in Hq |- *;
    rewrite Hq, insert_insert_eq, delete_insert_eq, <- !app_assoc;
    destruct rest as [|b rest']; cbn [is_empty andb];
    try destruct (we_enableWrite e); reflexivity.
Qed.

(** X11: when the socket takes all that is left of the front message at
    the first [::write], [WriteMessage] writes it in one call, calls its
    handler once with the OK status, deletes its helper, pops the queue and
    has no current helper any more; it turns the write notification off
    exactly when the queue is then empty.  The status is OK, unless that
    last call to the poller fails. *)
Theorem WriteMessage_one_shot (e : WriteEnv) (w : WhichQueue) (s : Stream)
    (a : Z) (rest : list Z) (h : OutMessageHelper) (cap : positive) :
  a <> 0 -> get_queue w s = a :: rest -> heap s !! a = Some h ->
  pCurrentOut s = 0 \/ pCurrentOut s = a ->
  let c0 := if pCurrentOut s =? 0 then 0 else m_cursor (msg h) in
  let left := m_size (msg h) - c0 in
  0 <= c0 -> 0 < left -> m_size (msg h) < 2 ^ 32 ->
  we_sock e O = WriteRoom cap -> left <= Z.pos cap ->
  exists st s',
    WriteMessage e w s = Some (st, s') /\
    st = (if is_empty rest && negb (we_enableWrite e)
          then Status2 stFatal errPollerError else Status_default) /\
    get_queue w s' = rest /\ heap s' = delete a (heap s) /\
    pCurrentOut s' = 0 /\
    trace s' = trace s ++ [EvWrite left left]
                 ++ call_handler h Status_default ++ helper_dtor h
                 ++ (if is_empty rest then [EvEnableWriteNotification false]
                     else []).
Proof.
  intros Hne Hq Hh Hcur c0 left Hc0 Hleft Hsz Hsock Hcap.
  rewrite (WriteMessage_room e w s a rest h cap Hne Hq Hh Hcur Hc0
             (Z.lt_le_incl _ _ Hleft) Hsz Hsock Hcap).
  fold c0. fold left.
  destruct (Z.eqb_spec left 0) as [?|_]; [lia|].
  eexists _, _. split; [reflexivity|]. split; [reflexivity|].
  destruct w, rest as [|b rest'];
    cbn [is_empty get_queue set_queue pOutQueue pOutQueueConnect set_trace
         set_heap set_pOutQueue set_pOutQueueConnect set_pCurrentOut trace
         heap pCurrentOut emit];
    rewrite <- ?app_assoc, ?app_nil_r; repeat split.
Qed.

Lemma WriteMessage_one_shot_witness :
  exists st s',
    WriteMessage (mkWriteEnv (fun _ => WriteRoom 65536) true) UserQueue
      stream_one_message = Some (st, s') /\
    st = Status_default /\
    trace s' = [EvWrite 4096 4096; EvHandleStatus 7 500 Status_default;
                EvEnableWriteNotification false].
Proof.
  assert (H1 : 1000 <> 0) by lia.
  assert (H2 : 0 <= 0) by lia.
  assert (H3 : 0 < 4096 - 0) by lia.
  assert (H4 : 4096 < 2 ^ 32) by lia.
  assert (H5 : 4096 - 0 <= 65536) by lia.
  destruct (WriteMessage_one_shot (mkWriteEnv (fun _ => WriteRoom 65536) true)
              UserQueue stream_one_message 1000 []
              (mkHelper (mkMessage 500 4096 0) 7 600 false) 65536%positive
              H1 eq_refl eq_refl (or_introl eq_refl) H2 H3 H4 eq_refl H5)
    as (st & s' & Heq & Hst & _ & _ & _ & Ht).
  exists st, s'. split; [exact Heq|]. split; [exact Hst|]. exact Ht.
Defined.

(** [QueueOut] on a connected stream whose poller cooperates. *)
Lemma QueueOut_connected e m hndlr timeout s :
  pStreamStatus s = Connected ->
  (pOutQueue s = [] -> qe_enableWrite e = true) ->
  QueueOut e m hndlr timeout s =
    (Status_default,
     let s' := if is_empty (pOutQueue s)
               then emit (EvEnableWriteNotification true) s else s in
     set_pOutQueue (pOutQueue s ++ [qe_new e])
       (set_heap (<[qe_new e := mkHelper m hndlr (qe_push_now e + timeout)
                                   false]> (heap s)) s')).
Proof.
  intros Hs Hp. unfold QueueOut, CheckConnection. rewrite Hs.
  cbn [StreamStatus_eqb orb IsOK Status_default status negb]. rewrite Hs.
  cbn [StreamStatus_eqb]. rewrite andb_true_r.
  destruct (pOutQueue s) eqn:Eq; cbn [is_empty].
  - rewrite Hp by reflexivity. cbn [negb pOutQueue heap emit set_trace].
    rewrite Eq. reflexivity.
  - reflexivity.
Qed.

(** X12: messages leave in the order they were queued.  On a connected,
    idle stream, after two messages have been queued, a write event with
    room for the first one writes the first message in full, calls its
    handler with the OK status and leaves the second message, untouched, at
    the front of the queue. *)
Theorem QueueOut_then_WriteMessage_fifo (e1 e2 : QueueEnv) (m1 m2 : Message)
    (h1 h2 t1 t2 : Z) (w : WriteEnv) (cap : positive) (s : Stream) :
  pStreamStatus s = Connected -> pOutQueue s = [] -> pCurrentOut s = 0 ->
  qe_new e1 <> 0 -> qe_new e1 <> qe_new e2 -> qe_enableWrite e1 = true ->
  0 < m_size m1 < 2 ^ 32 ->
  we_sock w O = WriteRoom cap -> m_size m1 <= Z.pos cap ->
  let s1 := snd (QueueOut e1 m1 h1 t1 s) in
  let s2 := snd (QueueOut e2 m2 h2 t2 s1) in
  pOutQueue s2 = [qe_new e1; qe_new e2] /\
  exists s3,
    WriteMessage w UserQueue s2 = Some (Status_default, s3) /\
    pOutQueue s3 = [qe_new e2] /\
    heap s3 !! qe_new e2 = Some (mkHelper m2 h2 (qe_push_now e2 + t2) false) /\
    heap s3 !! qe_new e1 = None /\
    trace s3 = trace s ++ [EvEnableWriteNotification true;
                           EvWrite (m_size m1) (m_size m1)]
                 ++ (if h1 =? 0 then []
                     else [EvHandleStatus h1 (m_addr m1) Status_default]).
Proof.
  intros Hs Hq Hc Hn0 Hn12 Hp Hsz Hsock Hcap. cbv zeta.
  rewrite (QueueOut_connected e1 m1 h1 t1 s Hs (fun _ => Hp)).
  rewrite Hq. cbn [is_empty snd app].
  set (s1 := set_pOutQueue _ _).
  rewrite (QueueOut_connected e2 m2 h2 t2 s1);
    [| exact Hs | unfold s1; cbn [pOutQueue set_pOutQueue]; discriminate].
  unfold s1 at 1 2 3. cbn [pOutQueue set_pOutQueue is_empty app snd].
  set (s2 := set_pOutQueue _ _).
  split; [reflexivity|].
  set (H1 := mkHelper m1 h1 (qe_push_now e1 + t1) false).
  assert (Hl : heap s2 !! qe_new e1 = Some H1).
  { unfold s2, s1. cbn [heap set_pOutQueue set_heap emit set_trace].
    rewrite lookup_insert_ne by congruence. apply lookup_insert_eq. }
  pose proof (WriteMessage_room w UserQueue s2 (qe_new e1) [qe_new e2] H1 cap
                Hn0 eq_refl Hl (or_introl Hc)) as Hw.
  assert (Hc2 : pCurrentOut s2 = 0) by exact Hc.
  rewrite Hc2 in Hw. cbn [Z.eqb msg H1 m_size] in Hw.
  rewrite Z.sub_0_r in Hw.
  specialize (Hw (Z.le_refl 0) (Z.lt_le_incl _ _ (proj1 Hsz)) (proj2 Hsz)
                Hsock Hcap).
  cbn [is_empty andb] in Hw.
  destruct (Z.eqb_spec (m_size m1) 0) as [?|_]; [lia|].
  eexists. split; [exact Hw|].
  unfold s2, s1.
  cbn [set_queue pOutQueue set_pOutQueue set_pCurrentOut set_trace set_heap
       heap trace emit].
  split; [reflexivity|]. split.
  { rewrite lookup_delete_ne by congruence. apply lookup_insert_eq. }
  split; [apply lookup_delete_eq|].
  unfold call_handler, helper_dtor, H1. cbn [handler msg ownMessage].
  cbn [is_empty trace emit set_trace set_pOutQueue set_heap].
  rewrite app_nil_r, <- app_assoc. reflexivity.
Qed.

Lemma QueueOut_then_WriteMessage_fifo_witness :
  let s := set_pStreamStatus Connected (Stream_new 0 cfg_30_3) in
  let s1 := snd (QueueOut (mkQueueEnv 5 (env_ok 5) true 5 1000 5)
                   (mkMessage 500 1024 0) 7 60 s) in
  let s2 := snd (QueueOut (mkQueueEnv 6 (env_ok 6) true 6 1001 6)
                   (mkMessage 501 2048 0) 8 60 s1) in
  pOutQueue s2 = [1000; 1001].
Proof.
  assert (H1 : 1000 <> 0) by lia.
  assert (H2 : 1000 <> 1001) by lia.
  assert (H3 : 0 < 1024 < 2 ^ 32) by lia.
  assert (H4 : 1024 <= 65536) by lia.
  exact (proj1 (QueueOut_then_WriteMessage_fifo
                  (mkQueueEnv 5 (env_ok 5) true 5 1000 5)
                  (mkQueueEnv 6 (env_ok 6) true 6 1001 6)
                  (mkMessage 500 1024 0) (mkMessage 501 2048 0) 7 8 60 60
                  (mkWriteEnv (fun _ => WriteRoom 65536) true) 65536%positive
                  (set_pStreamStatus Connected (Stream_new 0 cfg_30_3))
                  eq_refl eq_refl eq_refl H1 H2 eq_refl H3 eq_refl H4)).
Defined.

(** ** The retry budget of a connected stream *)

Lemma fault_chain_count fs : forall s,
  Forall (fun f => IsFatal (f_status f) = false) fs ->
  pConnectionCount s <= pConnectionRetry (cfg s) ->
  pConnectionCount (fault_chain fs s)
    = Z.min (pConnectionCount s + Z.of_nat (length fs))
        (pConnectionRetry (cfg s)).
Proof.
  induction fs as [|f fs IH]; intros s Hall Hle.
  - simpl. lia.
  - inversion Hall as [|? ? Hf Hall']; subst. simpl fault_chain.
    destruct (Z.ltb_spec (pConnectionCount s) (pConnectionRetry (cfg s)))
      as [Hlt|Hge].
    + destruct (fault_round_retry f s Hf Hlt) as (Rc & Rn & _).
      rewrite IH by (try assumption; rewrite Rc, Rn; lia).
      rewrite Rc, Rn. simpl length. lia.
    + assert (E : negb (IsFatal (f_status f))
                  && (pConnectionCount s <? pConnectionRetry (cfg s)) = false).
      { rewrite Hf. simpl. apply Z.ltb_ge. lia. }
      destruct (fault_round_giveup f s E) as (Rc & _ & Rn & _).
      rewrite IH by (try assumption; rewrite Rc, Rn; lia).
      rewrite Rc, Rn. simpl length. lia.
Qed.

(** X13: the retry budget of a stream whose connection counter is 0, as a
    completed handshake leaves it.  In a chain of non-fatal faults, each
    followed by the reconnection it arranged, each of the first
    [connectionRetry] faults is followed by one [Connect()] and leaves the
    stream [Connecting]; every later fault leaves it in [Error] and runs no
    [Connect()]. *)
Theorem fault_chain_from_connected (s : Stream) (fs : list Fault) :
  pConnectionCount s = 0 -> 0 <= pConnectionRetry (cfg s) ->
  Forall retryable fs -> fs <> [] ->
  pStreamStatus (fault_chain fs s)
    = (if Z.of_nat (length fs) <=? pConnectionRetry (cfg s)
       then Connecting else Error) /\
  Z.of_nat (connects (fault_chain fs s) - connects s)
    = Z.min (Z.of_nat (length fs)) (pConnectionRetry (cfg s)).
Proof.
  intros H0 Hr Hall Hne. split.
  - rewrite fault_chain_retryable by (try assumption; lia).
    rewrite H0. reflexivity.
  - destruct (fault_chain_counter fs s) as (_ & Hd & _ & _).
    rewrite fault_chain_count in Hd.
    + rewrite H0 in Hd. lia.
    + eapply Forall_impl; [exact Hall|]. intros f (Hf & _). exact Hf.
    + lia.
Qed.

Lemma fault_chain_from_connected_witness :
  pStreamStatus
    (fault_chain [connect_timeout 30; connect_timeout 60; connect_timeout 90;
                  connect_timeout 120] stream_three_slots) = Error /\
  pStreamStatus
    (fault_chain [connect_timeout 30; connect_timeout 60; connect_timeout 90]
       stream_three_slots) = Connecting.
Proof.
  assert (H0 : 0 <= pConnectionRetry (cfg stream_three_slots)) by (simpl; lia).
  split.
  - rewrite (proj1 (fault_chain_from_connected stream_three_slots
                      [connect_timeout 30; connect_timeout 60;
                       connect_timeout 90; connect_timeout 120]
                      eq_refl H0
                      ltac:(repeat constructor) ltac:(discriminate))).
    reflexivity.
  - rewrite (proj1 (fault_chain_from_connected stream_three_slots
                      [connect_timeout 30; connect_timeout 60;
                       connect_timeout 90]
                      eq_refl H0
                      ltac:(repeat constructor) ltac:(discriminate))).
    reflexivity.
Defined.

End StreamMore.

(** * Further properties of the multi-stream helper *)
Section MStreamMore.
Import MStream.

Variable SendGenCommand :
  ClientRequest -> Z -> XrdClientConn ->
  bool * XrdClientConn * ServerResponseBody_Bind.

(** ** [AddParallelStream] *)

(** X14: [AddParallelStream] returns 0 exactly when the new socket could be
    connected, the handshake did not fail, the bind exchange succeeded, the
    physical connection is valid and the pending stream could be
    established under the id left by the bind; in every other case it returns
    -1, or what [EstablishPendingParallelStream] returned. *)
Theorem AddParallelStream_zero_iff (pe : PhyEnv) (cliconn : XrdClientConn) :
  let b := BindPendingStream SendGenCommand cliconn XRDCLI_PSOCKTEMP (-1) in
  let r := (AddParallelStream SendGenCommand pe cliconn).1.1 in
  (r = 0 <->
   0 <= pe_tryConnect pe /\ pe_handShakeError pe = false /\
   b.1.1.1 = true /\ pe_isValid pe = true /\
   pe_establish pe (b.1.1.2) = 0) /\
  (r = 0 \/ r = -1 \/ r = pe_establish pe (b.1.1.2)).
Proof.
  cbv zeta. unfold AddParallelStream.
  destruct (Z.ltb_spec (pe_tryConnect pe) 0) as [Hneg|Hpos]; cbn [fst].
  { split; [|right; left; reflexivity]. split; [discriminate|].
    intros (H & _). lia. }
  destruct (pe_handShakeError pe); cbn [fst].
  { split; [|right; left; reflexivity]. split; [discriminate|].
    intros (_ & H & _). discriminate. }
  destruct (BindPendingStream _ _ _ _) as [[[bound newid] c1] tr'].
  cbn [fst snd].
  destruct bound; cbn [fst].
  2:{ split; [|right; left; reflexivity]. split; [discriminate|].
      intros (_ & _ & H & _). discriminate. }
  destruct (pe_isValid pe); cbn [fst].
  2:{ split; [|right; left; reflexivity]. split; [discriminate|].
      intros (_ & _ & _ & H & _). discriminate. }
  destruct (Z.eqb_spec (pe_establish pe newid) 0) as [E|E]; cbn [negb fst].
  - split; [|left; reflexivity]. split; [|reflexivity]. intros _.
    repeat split; assumption.
  - split; [|right; right; reflexivity]. split; [contradiction|].
    intros (_ & _ & _ & _ & H). contradiction.
Qed.

(** X15: [AddParallelStream] removes the pending stream, once and under
    its temporary id, on every failure that comes after the handshake: a
    failed bind, an invalid connection, a failed establishment.  It removes
    nothing when it succeeds, nor when the connection or the handshake
    failed. *)
Theorem AddParallelStream_removes_pending (pe : PhyEnv)
    (cliconn : XrdClientConn) :
  let r := AddParallelStream SendGenCommand pe cliconn in
  (forall sub, In (RemoveParallelStreamCall sub) r.2 ->
     sub = XRDCLI_PSOCKTEMP) /\
  count_calls is_remove r.2 =
    (if (0 <=? pe_tryConnect pe) && negb (pe_handShakeError pe)
        && negb (r.1.1 =? 0)
     then 1%nat else 0%nat) /\
  count_calls is_tryConnect r.2 = 1%nat.
Proof.
  cbv zeta. unfold AddParallelStream, BindPendingStream.
  destruct (Z.ltb_spec (pe_tryConnect pe) 0) as [Hneg|Hpos].
  { cbn [fst snd]. split; [|split; [|reflexivity]].
    - intros sub [H|[]]. discriminate.
    - destruct (Z.leb_spec 0 (pe_tryConnect pe)); [lia|reflexivity]. }
  destruct (Z.leb_spec 0 (pe_tryConnect pe)) as [_|?]; [|lia].
  destruct (pe_handShakeError pe).
  { cbn [fst snd app]. split; [|split; reflexivity].
    intros sub [H|[H|[]]]; discriminate. }
  destruct (SendGenCommand _ _ _) as [[res c1] bnd].
  cbn [fst snd app negb andb].
  destruct res; cbn [andb].
  2:{ split; [|split; reflexivity].
      intros sub H. cbn [In] in H.
      repeat (destruct H as [H|H]; [try discriminate H|]);
        [injection H; auto | contradiction]. }
  destruct (pe_isValid pe); cbn [app].
  2:{ split; [|split; reflexivity].
      intros sub H. cbn [In] in H.
      repeat (destruct H as [H|H]; [try discriminate H|]);
        [injection H; auto | contradiction]. }
  destruct (Z.eqb_spec (pe_establish pe
              (if resp_status (LastServerResp c1) =? kXR_ok
               then substreamid bnd else -1)) 0) as [E|E]; cbn [negb fst snd app].
  - split; [|split; reflexivity].
    intros sub H. cbn [In] in H.
    repeat (destruct H as [H|H]; [discriminate H|]). contradiction.
  - destruct (Z.eqb_spec (pe_establish pe
                (if resp_status (LastServerResp c1) =? kXR_ok
                 then substreamid bnd else -1)) 0) as [?|_]; [contradiction|].
    split; [|split; reflexivity].
    intros sub H. cbn [In] in H.
    repeat (destruct H as [H|H]; [try discriminate H|]);
      [injection H; auto | contradiction].
Qed.

(** X16: whatever happens while a parallel stream is added, the
    [LastServerResp] of the connection is afterwards what it was before. *)
Theorem AddParallelStream_keeps_LastServerResp (pe : PhyEnv)
    (cliconn : XrdClientConn) :
  LastServerResp ((AddParallelStream SendGenCommand pe cliconn).1.2)
    = LastServerResp cliconn.
Proof.
  unfold AddParallelStream, BindPendingStream.
  destruct (pe_tryConnect pe <? 0); [reflexivity|].
  destruct (pe_handShakeError pe); [reflexivity|].
  destruct (SendGenCommand _ _ _) as [[res c1] bnd]. cbn [fst snd].
  destruct res; [|reflexivity].
  destruct (pe_isValid pe); [|reflexivity].
  destruct (negb _); reflexivity.
Qed.

(** ** [EstablishParallelStreams] *)

Lemma count_calls_app p tr1 tr2 :
  count_calls p (tr1 ++ tr2) = (count_calls p tr1 + count_calls p tr2)%nat.
Proof.
  unfold count_calls. rewrite List.filter_app, length_app. reflexivity.
Qed.

(** The calls of one [AddParallelStream]: one attempt to connect, and a
    removal only when it fails. *)
Lemma AddParallelStream_calls pe cliconn :
  let r := AddParallelStream SendGenCommand pe cliconn in
  count_calls is_tryConnect r.2 = 1%nat /\
  (count_calls is_remove r.2 <= 1)%nat /\
  (r.1.1 = 0 -> count_calls is_remove r.2 = 0%nat) /\
  LastServerResp r.1.2 = LastServerResp cliconn.
Proof.
  cbv zeta. unfold AddParallelStream, BindPendingStream.
  assert (Hdone : forall (x : Z) (c : XrdClientConn) (tr : list Call),
    x <> 0 -> LastServerResp c = LastServerResp cliconn ->
    count_calls is_tryConnect tr = 1%nat ->
    (count_calls is_remove tr <= 1)%nat ->
    count_calls is_tryConnect (x, c, tr).2 = 1%nat /\
    (count_calls is_remove (x, c, tr).2 <= 1)%nat /\
    ((x, c, tr).1.1 = 0 -> count_calls is_remove (x, c, tr).2 = 0%nat) /\
    LastServerResp (x, c, tr).1.2 = LastServerResp cliconn).
  { intros x c tr Hx Hl Ht Hr. cbn [fst snd]. repeat split; try assumption.
    intros H. contradiction. }
  destruct (pe_tryConnect pe <? 0);
    [apply Hdone; first [lia | reflexivity | (cbn; lia)]|].
  destruct (pe_handShakeError pe);
    [apply Hdone; first [lia | reflexivity | (cbn; lia)]|].
  destruct (SendGenCommand _ _ _) as [[res c1] bnd]. cbn [fst snd].
  destruct res;
    [|apply Hdone; first [lia | reflexivity | (cbn; lia)]].
  destruct (pe_isValid pe);
    [|apply Hdone; first [lia | reflexivity | (cbn; lia)]].
  destruct (pe_establish pe _ =? 0) eqn:E; cbn [negb].
  - cbn. repeat split; first [reflexivity | lia].
  - apply Z.eqb_neq in E.
    apply Hdone; first [assumption | reflexivity | (cbn; lia)].
Qed.

Lemma EstablishParallelStreams_loop_spec pes n : forall i k cliconn tr,
  let r := EstablishParallelStreams_loop SendGenCommand n i pes k cliconn tr in
  i <= r.1.1 <= i + Z.of_nat n /\
  count_calls is_tryConnect r.2
    = (count_calls is_tryConnect tr + Z.to_nat (r.1.1 - i)%Z
       + if (r.1.1 <? i + Z.of_nat n)%Z then 1 else 0)%nat /\
  (count_calls is_remove r.2
   <= count_calls is_remove tr
      + if (r.1.1 <? i + Z.of_nat n)%Z then 1 else 0)%nat /\
  LastServerResp r.1.2 = LastServerResp cliconn.
Proof.
  induction n as [|n IH]; intros i k cliconn tr; cbv zeta.
  - simpl. rewrite Z.add_0_r, Z.ltb_irrefl, Z.sub_diag. simpl.
    repeat split; lia.
  - cbn [EstablishParallelStreams_loop].
    pose proof (AddParallelStream_calls (pes k) cliconn) as Hadd.
    destruct (AddParallelStream SendGenCommand (pes k) cliconn)
      as [[res c1] tr'].
    cbn [fst snd] in Hadd. destruct Hadd as (Ht & Hr1 & Hr0 & Hl).
    destruct (Z.eqb_spec res 0) as [E|E]; cbn [negb].
    + specialize (IH (i + 1) (S k) c1 (tr ++ tr')). cbv zeta in IH.
      destruct (EstablishParallelStreams_loop _ _ _ _ _ _ _)
        as [[r c2] tr2].
      cbn [fst snd] in IH |- *.
      destruct IH as (Hb & Hc & Hrm & Hls).
      rewrite !count_calls_app, Ht in Hc.
      rewrite !count_calls_app, (Hr0 E) in Hrm.
      replace (i + 1 + Z.of_nat n) with (i + Z.of_nat (S n)) in * by lia.
      rewrite Hc, Hls, Hl.
      split; [lia|]. split; [|split; [lia | reflexivity]].
      replace (Z.to_nat (r - i)) with (S (Z.to_nat (r - (i + 1)))) by lia.
      lia.
    + cbn [fst snd]. rewrite !count_calls_app, Ht, Z.sub_diag.
      destruct (Z.ltb_spec i (i + Z.of_nat (S n))); [|lia].
      simpl. repeat split; try lia. exact Hl.
Qed.


End MStreamMore.

(** * Further properties of [SplitReadRequest] *)
Section SplitMore.
Import MStream.

Variable DFLT : Z.
Variable Pool : Type.
Variable count : Pool -> Z.
Variable select : Pool -> Z * Pool.

Local Abbreviation split := (SplitReadRequest DFLT Pool count select).
Local Abbreviation splt_of := (spltsize_of DFLT Pool count).
Local Abbreviation picks := (selections Pool select).

Lemma selections_S n pool :
  picks (S n) pool =
    ((select pool).1 :: (picks n (select pool).2).1,
     (picks n (select pool).2).2).
Proof.
  cbn [selections]. destruct (select pool) as [sid p1]. cbn [fst snd].
  destruct (selections Pool select n p1). reflexivity.
Qed.

(** Where the loop counter stays in the range of its type, the loop started
    at [pp] inside the request selects one stream per chunk, in the order of
    the chunks, and pushes as many chunks as it takes steps of [splt] to
    get from [pp] to [len]. *)
Lemma SplitReadRequest_loop_selects offset len splt fuel :
  forall pp pool acc,
  0 < splt -> 0 <= pp < len ->
  len - 1 + splt <= INT32_MAX ->
  (Z.to_nat (len - pp) <= fuel)%nat ->
  exists new,
    SplitReadRequest_loop Pool select fuel offset len splt pp pool acc
      = Some (acc ++ new, (picks (length new) pool).2) /\
    map streamtosend new = (picks (length new) pool).1 /\
    Z.of_nat (length new) = (len - pp + splt - 1) / splt.
Proof.
  unfold INT32_MAX.
  induction fuel as [|fuel IH]; intros pp pool acc Hs Hpp H32 Hfuel; [lia|].
  cbn [SplitReadRequest_loop].
  destruct (Z.ltb_spec pp len) as [_|?]; [|lia].
  destruct (select pool) as [sid pool1] eqn:Hsel.
  rewrite (i32_small (pp + splt)) by lia.
  destruct (Z.lt_ge_cases (pp + splt) len) as [Hmore|Hlast].
  - destruct (IH (pp + splt) pool1
                (acc ++ [mkChunk (i64 (pp + offset))
                           (xrdmin (i32 (len - pp)) splt) sid]))
      as (new & Heq & Hsids & Hn); try lia.
    exists (mkChunk (i64 (pp + offset)) (xrdmin (i32 (len - pp)) splt) sid
              :: new).
    cbn [length map streamtosend]. rewrite selections_S, Hsel. cbn [fst snd].
    rewrite Heq, <- app_assoc, Hsids. repeat split.
    replace (len - pp + splt - 1)
      with (len - (pp + splt) + splt - 1 + 1 * splt) by lia.
    rewrite Z.div_add by lia. lia.
  - rewrite SplitReadRequest_loop_done by lia.
    exists [mkChunk (i64 (pp + offset)) (xrdmin (i32 (len - pp)) splt) sid].
    cbn [length map streamtosend]. rewrite selections_S, Hsel. cbn.
    repeat split.
    change (1 = (len - pp + splt - 1) / splt).
    apply (Z.div_unique _ _ 1 (len - pp - 1)); lia.
Qed.

Lemma spltsize_of_pos pool len :
  0 < DFLT -> 0 <= len <= INT32_MAX -> 0 < splt_of pool len.
Proof.
  intros Hd Hlen. rewrite spltsize_of_spec by lia. destruct (_ <=? _); lia.
Qed.




(** X21: for a length of zero or less, nothing is pushed on [reqlists] and
    no stream is selected, whatever the offset, the pool and the fuel. *)
Theorem SplitReadRequest_nothing_to_read (fuel : nat) (pool : Pool)
    (offset len : Z) (reqlists : list ReadChunk) :
  len <= 0 ->
  split fuel pool offset len reqlists = Some (reqlists, pool).
Proof.
  intros Hlen. unfold SplitReadRequest.
  apply SplitReadRequest_loop_done. exact Hlen.
Qed.

End SplitMore.




Lemma SplitReadRequest_nothing_to_read_witness :
  MStream.SplitReadRequest 16 MStream.RoundRobin MStream.RoundRobin_count
    MStream.RoundRobin_select 0 MStream.pool_4 40 0 [MStream.mkChunk 0 40 0]
    = Some ([MStream.mkChunk 0 40 0], MStream.pool_4).
Proof.
  apply (SplitReadRequest_nothing_to_read 16 MStream.RoundRobin
           MStream.RoundRobin_count MStream.RoundRobin_select 0
           MStream.pool_4 40 0 [MStream.mkChunk 0 40 0]).
  lia.
Defined.
